(** * vcard_converter: conversion of vCard 3.0 exports to vCard 4.0

    A shallow embedding of [convert_vcard_3_to_4] (src/vcard_converter.py)
    and the properties of its record splitter and per-record transformer.

    Python [str] values are sequences of Unicode code points; they are
    modelled as lists of code points ([N]).  The string methods and the
    regular expressions the converter uses are embedded in [Module Py];
    the converter itself follows, statement by statement. *)

From Stdlib Require Import String Ascii List NArith Arith Bool Lia.
Import ListNotations.

Set Implicit Arguments.

(* ================================================================== *)
(** ** Python strings *)
(* ================================================================== *)

Module Py.

Local Open Scope N_scope.

(** A code point. *)
Definition char := N.

(** A Python [str]. *)
Definition str := list char.

(** A string literal of the source, as a [str]. *)
Definition lit (s : string) : str := map N_of_ascii (list_ascii_of_string s).

Definition in_range (lo hi c : char) : bool := (lo <=? c)%N && (c <=? hi)%N.

(** [c.isspace()]: the characters removed by [str.strip()] without
    arguments (bidirectional type WS, B or S, or category Zs). *)
Definition isspace (c : char) : bool :=
  in_range 0x09 0x0d c || in_range 0x1c 0x20 c
  || (c =? 0x85)%N || (c =? 0xa0)%N || (c =? 0x1680)%N
  || in_range 0x2000 0x200a c || (c =? 0x2028)%N || (c =? 0x2029)%N
  || (c =? 0x202f)%N || (c =? 0x205f)%N || (c =? 0x3000)%N.

Fixpoint lstrip (s : str) : str :=
  match s with
  | c :: r => if isspace c then lstrip r else s
  | [] => []
  end.

Definition rstrip (s : str) : str := rev (lstrip (rev s)).

(** [s.strip()] *)
Definition strip (s : str) : str := rstrip (lstrip s).

(** [not s]: the empty string is falsy. *)
Definition falsy (A : Type) (s : list A) : bool :=
  match s with [] => true | _ :: _ => false end.

(** [s.split(sep)] for a one-character separator: never an empty list. *)
Fixpoint split (sep : char) (s : str) : list str :=
  match s with
  | [] => [[]]
  | c :: r =>
      if (c =? sep)%N then [] :: split sep r
      else match split sep r with
           | h :: t => (c :: h) :: t
           | [] => [[c]]
           end
  end.

(** [sep.join(parts)] *)
Fixpoint join (sep : str) (parts : list str) : str :=
  match parts with
  | [] => []
  | p :: rest =>
      match rest with
      | [] => p
      | _ :: _ => p ++ sep ++ join sep rest
      end
  end.

(** [s.startswith(p)] *)
Fixpoint startswith (p s : str) : bool :=
  match p with
  | [] => true
  | a :: p' =>
      match s with
      | b :: s' => (a =? b)%N && startswith p' s'
      | [] => false
      end
  end.

(** [p in s] *)
Fixpoint contains (p s : str) : bool :=
  startswith p s
  || match s with
     | [] => false
     | _ :: r => contains p r
     end.

(** [xs[-1]] of a list known to be non-empty. *)
Definition last_line (xs : list str) : str := last xs [].

(** [xs.insert(i, x)] for [i >= 0]. *)
Definition insert (A : Type) (i : nat) (x : A) (xs : list A) : list A :=
  firstn i xs ++ x :: skipn i xs.

(** [next(i for i, x in enumerate(xs) if p(x))] without a default:
    [None] stands for the [StopIteration] the call raises. *)
Fixpoint find_index (A : Type) (p : A -> bool) (xs : list A) : option nat :=
  match xs with
  | [] => None
  | x :: r => if p x then Some 0%nat else option_map S (find_index p r)
  end.

(** *** Regular expressions *)

(** [\d] on a [str] pattern: the decimal digits of Unicode (category Nd,
    Unicode 14.0 as in CPython 3.11); each entry is the first code point
    of a run of digits and the length of the run. *)
Definition decimal_runs : list (N * N) :=
  [(48, 10); (1632, 10); (1776, 10); (1984, 10); (2406, 10); (2534, 10);
   (2662, 10); (2790, 10); (2918, 10); (3046, 10); (3174, 10); (3302, 10);
   (3430, 10); (3558, 10); (3664, 10); (3792, 10); (3872, 10); (4160, 10);
   (4240, 10); (6112, 10); (6160, 10); (6470, 10); (6608, 10); (6784, 10);
   (6800, 10); (6992, 10); (7088, 10); (7232, 10); (7248, 10); (42528, 10);
   (43216, 10); (43264, 10); (43472, 10); (43504, 10); (43600, 10);
   (44016, 10); (65296, 10); (66720, 10); (68912, 10); (69734, 10);
   (69872, 10); (69942, 10); (70096, 10); (70384, 10); (70736, 10);
   (70864, 10); (71248, 10); (71360, 10); (71472, 10); (71904, 10);
   (72016, 10); (72784, 10); (73040, 10); (73120, 10); (92768, 10);
   (92864, 10); (93008, 10); (120782, 50); (123200, 10); (123632, 10);
   (125264, 10); (130032, 10)]%N.

Definition isdecimal (c : char) : bool :=
  existsb (fun r => (fst r <=? c)%N && (c <? fst r + snd r)%N) decimal_runs.

(** [[A-Za-z0-9+/=]] *)
Definition base64_char (c : char) : bool :=
  in_range 65 90 c || in_range 97 122 c || in_range 48 57 c
  || (c =? 43)%N || (c =? 47)%N || (c =? 61)%N.

(** [re.match(r'^[A-Za-z0-9+/=]', s)]: only the first character is
    examined. *)
Definition match_base64_start (s : str) : bool :=
  match s with
  | c :: _ => base64_char c
  | [] => false
  end.

(** [re.sub(pattern, repl, s)] for a pattern that never matches the empty
    string.  [m s] is [Some (out, n)] when the pattern matches at the head
    of [s], consumes [n > 0] characters and is replaced by [out].  The scan
    goes left to right; [skip] counts the characters of the current match
    still to be consumed. *)
Fixpoint re_sub (m : str -> option (str * nat)) (skip : nat) (s : str) : str :=
  match s with
  | [] => []
  | c :: r =>
      match skip with
      | S k => re_sub m k r
      | O =>
          match m s with
          | Some (out, n) => out ++ re_sub m (pred n) r
          | None => c :: re_sub m 0 r
          end
      end
  end.

Fixpoint strip_prefix (p s : str) : option str :=
  match p with
  | [] => Some s
  | a :: p' =>
      match s with
      | b :: s' => if (a =? b)%N then strip_prefix p' s' else None
      | [] => None
      end
  end.

Fixpoint span (p : char -> bool) (s : str) : str * str :=
  match s with
  | c :: r => if p c then let (a, b) := span p r in (c :: a, b) else ([], s)
  | [] => ([], [])
  end.

(** [item\d+\.TOK] at the head of [s], replaced by [TOK].  The digits are
    taken greedily; as [.] is no digit, giving some back cannot help. *)
Definition match_item (tok : str) (s : str) : option (str * nat) :=
  match strip_prefix (lit "item") s with
  | Some r =>
      let (ds, r') := span isdecimal r in
      if falsy ds then None
      else match strip_prefix (46%N :: tok) r' with
           | Some _ => Some (tok, (4 + length ds + 1 + length tok)%nat)
           | None => None
           end
  | None => None
  end.

(** [re.sub(r'item\d+\.TOK', 'TOK', s)] *)
Definition sub_item (tok : str) (s : str) : str := re_sub (match_item tok) 0 s.

(** Equality of characters under [re.IGNORECASE], for a pattern character
    that is an ASCII lower-case letter other than i, k and s (these have
    further equivalents), or that has no case. *)
Definition eq_ignorecase (pat c : char) : bool :=
  (c =? pat)%N || (in_range 97 122 pat && (c =? pat - 32)%N).

Fixpoint strip_prefix_ignorecase (p s : str) : option str :=
  match p with
  | [] => Some s
  | a :: p' =>
      match s with
      | b :: s' => if eq_ignorecase a b then strip_prefix_ignorecase p' s' else None
      | [] => None
      end
  end.

(** [type=([^;]+)] at the head of [s], case-insensitively, replaced by
    [TYPE=\1]. *)
Definition match_type (s : str) : option (str * nat) :=
  match strip_prefix_ignorecase (lit "type=") s with
  | Some r =>
      let (g, _) := span (fun c => negb (c =? 59)%N) r in
      if falsy g then None
      else Some (lit "TYPE=" ++ g, (5 + length g)%nat)
  | None => None
  end.

(** [re.sub(r'type=([^;]+)', r'TYPE=\1', s, flags=re.IGNORECASE)] *)
Definition sub_type (s : str) : str := re_sub match_type 0 s.

End Py.

Import Py.

(* ================================================================== *)
(** ** The converter *)
(* ================================================================== *)

(** The [settings] dictionary, with both of its keys present. *)
Record settings := Settings { remove_fn : bool; remove_photos : bool }.

(** The exception the converter can raise.  The indexed accesses of the
    source ([split(':')[1]], [current_vcard[-1]], [new_lines[-1]]) are
    always in range, see [split_colon_second] and [rewrite_pass_begin]. *)
Inductive exn := StopIteration.

Inductive result (A : Type) : Type :=
| Ok (a : A)
| Raise (e : exn).

Arguments Ok {A} a.
Arguments Raise {A} e.

Definition bind (A B : Type) (r : result A) (k : A -> result B) : result B :=
  match r with
  | Ok a => k a
  | Raise e => Raise e
  end.

Notation "x <- r ;; k" := (bind r (fun x => k))
  (at level 61, r at next level, right associativity).

Definition nl : char := 10%N.
Definition semicolon : char := 59%N.
Definition colon : char := 58%N.

Definition BEGIN_VCARD : str := lit "BEGIN:VCARD".
Definition END_VCARD : str := lit "END:VCARD".
Definition VERSION_ : str := lit "VERSION:".
Definition VERSION_4 : str := lit "VERSION:4.0".
Definition KIND_org : str := lit "KIND:org".
Definition X_ABShowAs_COMPANY : str := lit "X-ABShowAs:COMPANY".
Definition ADR : str := lit "ADR".
Definition URL : str := lit "URL".
Definition N_ : str := lit "N:".

Arguments lit : simpl never.
Arguments BEGIN_VCARD : simpl never.
Arguments END_VCARD : simpl never.
Arguments VERSION_ : simpl never.
Arguments VERSION_4 : simpl never.
Arguments KIND_org : simpl never.
Arguments X_ABShowAs_COMPANY : simpl never.
Arguments ADR : simpl never.
Arguments URL : simpl never.
Arguments N_ : simpl never.

(** A text given by its lines. *)
Definition text (ls : list str) : str := join [nl] ls.

(** *** Splitting the input into cards (lines 47-65) *)

(** [if not current_vcard[-1].startswith('END:VCARD'): current_vcard.append('END:VCARD')]
    followed by ['\n'.join(current_vcard)]. *)
Definition close_card (current_vcard : list str) : str :=
  join [nl]
    (if negb (startswith END_VCARD (last_line current_vcard))
     then current_vcard ++ [END_VCARD]
     else current_vcard).

(** The two variables of the splitting loop.  [current_vcard] starts as the
    empty list and is tested with [is not None]: it is an optional list. *)
Record split_state := SplitState {
  vcards : list str;
  current_vcard : option (list str)
}.

(** [if current_vcard:] then close the card and append it. *)
Definition save_card (st : split_state) : list str :=
  match current_vcard st with
  | Some ((_ :: _) as cur) => vcards st ++ [close_card cur]
  | Some [] => vcards st
  | None => vcards st
  end.

(** The body of [for line in lines] at lines 51-59. *)
Definition split_step (st : split_state) (line : str) : split_state :=
  if startswith BEGIN_VCARD line then
    SplitState (save_card st) (Some [line])
  else
    match current_vcard st with
    | Some cur => SplitState (vcards st) (Some (cur ++ [line]))
    | None => st
    end.

Definition split_init : split_state := SplitState [] (Some []).

(** Lines 47-65: the list [vcards]. *)
Definition split_vcards (input_text : str) : list str :=
  save_card (fold_left split_step (split nl (strip input_text)) split_init).

(** *** Classification (lines 80-87) *)

Definition has_x_abshowas_company (lines : list str) : bool :=
  existsb (startswith X_ABShowAs_COMPANY) lines.

(** [next((line for line in lines if line.startswith('N:')), '')] *)
Definition n_field (lines : list str) : str :=
  match find (startswith N_) lines with
  | Some line => line
  | None => []
  end.

(** [line.split(':')[1].split(';')] of a line that starts with [N:], which
    therefore has a second piece (lemma [split_colon_second]). *)
Definition name_components (line : str) : list str :=
  split semicolon (nth 1 (split colon line) []).

Definition n_parts (lines : list str) : list str :=
  if falsy (n_field lines) then [] else name_components (n_field lines).

Definition has_empty_n (lines : list str) : bool :=
  forallb (fun part => falsy (strip part)) (n_parts lines).

Definition has_org (lines : list str) : bool :=
  existsb (startswith (lit "ORG:")) lines.

Definition is_org (lines : list str) : bool :=
  has_x_abshowas_company lines || (has_empty_n lines && has_org lines).

(** *** The rules of the line loop (lines 89-154) *)

(** Lines 95-102.  [Skip] is [continue]; both carry the new value of
    [skip_photo]. *)
Inductive photo_outcome := Skip (skip_photo : bool) | Proceed (skip_photo : bool).

Definition photo_rule (s : settings) (skip_photo : bool) (line : str)
  : photo_outcome :=
  if remove_photos s then
    if startswith (lit "PHOTO;") line then Skip true
    else if skip_photo then
      if startswith (lit " ") line || match_base64_start line
      then Skip skip_photo
      else Proceed false
    else Proceed skip_photo
  else Proceed skip_photo.

(** Lines 146-147, [while parts and not parts[-1]: parts.pop()], seen from
    the end of the list. *)
Fixpoint pop_empty (rev_parts : list str) : list str :=
  match rev_parts with
  | [] :: r => pop_empty r
  | _ => rev_parts
  end.

Definition drop_trailing_empty (parts : list str) : list str :=
  rev (pop_empty (rev parts)).

(** Lines 144-148. *)
Definition normalize_n (line : str) : str :=
  let parts := drop_trailing_empty (name_components line) in
  N_ ++ join [semicolon] (parts ++ repeat [] (5 - List.length parts)).

(** Lines 122-124. *)
Definition address_rule (line : str) : str :=
  if contains ADR line then sub_type (sub_item ADR line) else line.

(** Lines 127-128. *)
Definition telephone_rule (line : str) : str :=
  if startswith (lit "TEL;") line then sub_type line else line.

(** Lines 135-136. *)
Definition email_rule (line : str) : str :=
  if startswith (lit "EMAIL;") line then sub_type line else line.

(** Lines 139-140. *)
Definition url_rule (line : str) : str :=
  if startswith (lit "item") line then sub_item URL line else line.

(** Lines 143-148. *)
Definition name_rule (line : str) : str :=
  if startswith N_ line then normalize_n line else line.

(** Lines 122-148: the rewriting rules; none of them ends the iteration,
    each works on the line as left by the ones before. *)
Definition rewrite_line (line : str) : str :=
  let line := address_rule line in
  let line := telephone_rule line in
  let line := email_rule line in
  let line := url_rule line in
  let line := name_rule line in
  line.

(** Line 151. *)
Definition apple_specific (line : str) : bool :=
  existsb (fun x => contains x line)
    [lit "X-APPLE-"; lit "X-ABADR:"; lit "X-ABLabel:"].

(** Lines 104-154: what is appended to [new_lines] for a line that got
    past the photo rule; [None] is [continue]. *)
Definition field_rules (s : settings) (line : str) : option str :=
  if remove_fn s && startswith (lit "FN:") line then None
  else if startswith (lit "PRODID:-//Apple Inc.//") line then None
  else if startswith VERSION_ line then Some VERSION_4
  else if startswith X_ABShowAs_COMPANY line then None
  else
    let line := rewrite_line line in
    if apple_specific line then None else Some line.

(** The variables the line loop updates. *)
Record loop_state := LoopState {
  new_lines : list str;
  skip_photo : bool
}.

(** The body of [for line in lines] at lines 89-154. *)
Definition line_step (s : settings) (st : loop_state) (line : str) : loop_state :=
  if falsy (strip line) || startswith BEGIN_VCARD line then st
  else
    match photo_rule s (skip_photo st) line with
    | Skip sp => LoopState (new_lines st) sp
    | Proceed sp =>
        match field_rules s line with
        | None => LoopState (new_lines st) sp
        | Some out => LoopState (new_lines st ++ [out]) sp
        end
    end.

Definition loop_init : loop_state := LoopState [BEGIN_VCARD] false.

(** [new_lines] after the line loop. *)
Definition rewrite_pass (s : settings) (lines : list str) : list str :=
  new_lines (fold_left (line_step s) lines loop_init).

(** Lines 157-159. *)
Definition add_kind (org : bool) (new_lines : list str) : result (list str) :=
  if org then
    match find_index (startswith VERSION_) new_lines with
    | Some version_index => Ok (insert (version_index + 1) KIND_org new_lines)
    | None => Raise StopIteration
    end
  else Ok new_lines.

(** Lines 162-163. *)
Definition ensure_end (new_lines : list str) : list str :=
  if negb (startswith END_VCARD (last_line new_lines))
  then new_lines ++ [END_VCARD]
  else new_lines.

(** Lines 74-163 on the lines of one card: the final [new_lines]. *)
Definition transform_lines (s : settings) (lines : list str) : result (list str) :=
  new_lines <- add_kind (is_org lines) (rewrite_pass s lines) ;;
  Ok (ensure_end new_lines).

(** The lines of a card: [vcard.strip().split('\n')]. *)
Definition card_lines (vcard : str) : list str := split nl (strip vcard).

(** One iteration of [for vcard in vcards]: the block appended to
    [converted_vcards]. *)
Definition transform_vcard (s : settings) (vcard : str) : result str :=
  new_lines <- transform_lines s (card_lines vcard) ;;
  Ok (join [nl] new_lines).

(** Lines 67-165: the list [converted_vcards]. *)
Fixpoint convert_loop (s : settings) (vcards converted_vcards : list str)
  : result (list str) :=
  match vcards with
  | [] => Ok converted_vcards
  | vcard :: rest =>
      if falsy (strip vcard) then convert_loop s rest converted_vcards
      else
        block <- transform_vcard s vcard ;;
        convert_loop s rest (converted_vcards ++ [block])
  end.

Definition converted_blocks (input_text : str) (s : settings) : result (list str) :=
  convert_loop s (split_vcards input_text) [].

(** [convert_vcard_3_to_4(input_text, settings)] *)
Definition convert_vcard_3_to_4 (input_text : str) (s : settings) : result str :=
  converted_vcards <- converted_blocks input_text s ;;
  Ok (join [nl; nl] converted_vcards).

(* ================================================================== *)
(** ** Vocabulary of the properties *)
(* ================================================================== *)

(** The matcher looks at the first character: [hin] holds of the first
    character of every match, [hout] of the first character of every
    replacement. *)
Definition heads (m : str -> option (str * nat)) (hin hout : char -> Prop)
  : Prop :=
  forall s out n, m s = Some (out, n) ->
    (exists c r, s = c :: r /\ hin c) /\ (exists h t, out = h :: t /\ hout h).

(** The continuation lines of the specification: a line that starts with
    whitespace, or a non-empty line made of base64 characters only. *)
Definition continuation_line_spec (line : str) : bool :=
  match line with
  | [] => false
  | c :: _ => isspace c || forallb base64_char line
  end.

(** The lines the splitter iterates over. *)
Definition input_lines (input_text : str) : list str :=
  split nl (strip input_text).

(** The number of begin-marker lines of the input. *)
Definition begin_marker_count (input_text : str) : nat :=
  List.length (filter (startswith BEGIN_VCARD) (input_lines input_text)).

(** One for a begin-marker line. *)
Definition begin_flag (line : str) : nat :=
  if startswith BEGIN_VCARD line then 1 else 0.

(** A splitter state with a card under construction. *)
Definition card_open (st : split_state) : Prop :=
  exists line cur, current_vcard st = Some (line :: cur).

(** Cards as the splitter closes them. *)
Definition closed_cards (cards : list str) : Prop :=
  forall v, In v cards -> exists cur, v = close_card cur.

(** The components the [N:] rule keeps. *)
Definition kept_components (line : str) : list str :=
  drop_trailing_empty (name_components line).

(** The components the [N:] rule emits. *)
Definition padded_components (line : str) : list str :=
  kept_components line ++ repeat [] (5 - List.length (kept_components line)).

(** A component that is empty or made of whitespace only. *)
Definition blank (part : str) : Prop :=
  forall c, In c part -> isspace c = true.

(** The value of a line that starts with [N:]: the text behind [N:]. *)
Definition field_value (line : str) : str := skipn 2 line.

(** The components of that value, separated by semicolons. *)
Definition value_components (line : str) : list str :=
  split semicolon (field_value line).

(** Following the specification: the structured name of a card is empty
    when the card has no line that starts with [N:], or when every
    component of the value of the first such line is blank. *)
Definition structured_name_is_empty (lines : list str) : Prop :=
  match find (startswith N_) lines with
  | Some line => forall part, In part (value_components line) -> blank part
  | None => True
  end.

(** [b] is the character [a], or the upper-case letter of the lower-case
    letter [a]. *)
Definition same_letter (a b : char) : Prop :=
  b = a \/ ((97 <= a <= 122)%N /\ b = (a - 32)%N).

(** [t] is [item], one or more decimal digits, a dot and the token,
    followed by [rest]. *)
Definition item_prefixed (tok t rest : str) : Prop :=
  exists ds,
    ds <> [] /\ forallb isdecimal ds = true /\
    t = lit "item" ++ ds ++ [46%N] ++ tok ++ rest.

(** [t] is [type=] in any letter case and a value [g] that is not empty
    and runs up to the next semicolon or to the end, followed by
    [rest]. *)
Definition type_keyed (t g rest : str) : Prop :=
  exists q,
    Forall2 same_letter (lit "type=") q /\
    g <> [] /\ ~ In semicolon g /\
    (rest = [] \/ exists r, rest = semicolon :: r) /\
    t = q ++ g ++ rest.

(** The card has an organization-name line. *)
Definition has_organization_field (lines : list str) : Prop :=
  exists line, In line lines /\ startswith (lit "ORG:") line = true.

(** The binary-address marker of line 151. *)
Definition X_ABADR : str := lit "X-ABADR:".

(** What [re.sub(r'type=([^;]+)', r'TYPE=\1', ...)] can do to a character:
    leave it, or replace a lower-case t, y, p or e. *)
Definition case_changed (c c' : char) : Prop :=
  c' = c \/ In c [116%N; 121%N; 112%N; 101%N].

(** The line as the rules in front of the [N:] rule leave it. *)
Definition before_name_rule (line : str) : str :=
  url_rule (email_rule (telephone_rule (address_rule line))).

(** None of the rules in front of the rewriting rules (lines 104-119)
    ends the iteration for this line. *)
Definition reaches_rewriting (s : settings) (line : str) : bool :=
  negb (remove_fn s && startswith (lit "FN:") line)
  && negb (startswith (lit "PRODID:-//Apple Inc.//") line)
  && negb (startswith VERSION_ line)
  && negb (startswith X_ABShowAs_COMPANY line).

(** The number of lines equal to [line]. *)
Definition count_line (line : str) (lines : list str) : nat :=
  count_occ (list_eq_dec N.eq_dec) lines line.

(** A group of input lines that makes one card: it is not empty and none
    of its lines after the first is a begin marker. *)
Definition card_group (g : list str) : Prop :=
  exists line rest,
    g = line :: rest /\
    Forall (fun l => startswith BEGIN_VCARD l = false) rest.

(** The group starts with a begin-marker line. *)
Definition begins_card (g : list str) : Prop :=
  startswith BEGIN_VCARD (hd [] g) = true.

(** The lines of a card as [close_card] leaves them. *)
Definition closed_lines (g : list str) : list str :=
  if negb (startswith END_VCARD (last_line g)) then g ++ [END_VCARD] else g.

(** What one line adds to [new_lines] when the photo rule lets it
    through (lines 91-92 and 104-154). *)
Definition emitted (s : settings) (line : str) : list str :=
  if falsy (strip line) || startswith BEGIN_VCARD line then []
  else match field_rules s line with
       | Some out => [out]
       | None => []
       end.

(** The lines the loop passes over while [skip_photo] is set (lines 91,
    96 and 100). *)
Definition passed_over (line : str) : bool :=
  falsy (strip line) || startswith BEGIN_VCARD line
  || startswith (lit "PHOTO;") line
  || startswith (lit " ") line || match_base64_start line.

(** What the [type=] substitution does to a character: it leaves it, or
    turns a lower-case t, y, p or e into the upper-case letter. *)
Definition upper_cased (c c' : char) : Prop :=
  c' = c \/ (In c [116%N; 121%N; 112%N; 101%N] /\ c' = (c - 32)%N).

(** The characters that can start a match or a replacement of the
    substitutions of the converter: i, t, T, A and U. *)
Definition substitution_head (c : char) : Prop :=
  In c [105%N; 116%N; 84%N; 65%N; 85%N].

(** The card is classified as an organization and its rewrite pass left
    no version line: the case in which line 158 raises. *)
Definition lacks_version (s : settings) (vcard : str) : Prop :=
  is_org (card_lines vcard) = true /\
  forall l, In l (rewrite_pass s (card_lines vcard)) ->
            startswith VERSION_ l = false.

(** The line holds a character that is no whitespace. *)
Definition has_ink (line : str) : bool :=
  existsb (fun c => negb (isspace c)) line.

(** The lines of a text made of blocks that are separated by one empty
    line: ['\n\n'.join(blocks)] seen line by line. *)
Fixpoint blocks_lines (blocks : list (list str)) : list str :=
  match blocks with
  | [] => [[]]
  | b :: rest =>
      match rest with
      | [] => b
      | _ :: _ => b ++ [] :: blocks_lines rest
      end
  end.

(** [kept] is [lines] with some of the lines left out. *)
Inductive subsequence : list str -> list str -> Prop :=
| subsequence_nil : subsequence [] []
| subsequence_drop (l : str) (kept lines : list str) :
    subsequence kept lines -> subsequence kept (l :: lines)
| subsequence_keep (l : str) (kept lines : list str) :
    subsequence kept lines -> subsequence (l :: kept) (l :: lines).

(** The characters the rewriting rules can put into a line: the letters
    of [TYPE], [ADR] and [URL], and [N], [:] and [;]. *)
Definition rule_characters : list char :=
  [84%N; 89%N; 80%N; 69%N; 65%N; 68%N; 82%N; 85%N; 76%N; 78%N; 58%N; 59%N].

(* ================================================================== *)
(** ** Inputs used in the examples *)
(* ================================================================== *)

Module Sample.

(** A company card without a version line. *)
Definition company_no_version : str :=
  text [lit "BEGIN:VCARD"; lit "X-ABShowAs:COMPANY"; lit "END:VCARD"].

(** A card with an embedded photo followed by ordinary fields. *)
Definition photo_card : str :=
  text [lit "BEGIN:VCARD"; lit "VERSION:3.0";
        lit "PHOTO;ENCODING=b;TYPE=JPEG:/9j/4AAQSkZJRgABAQAA";
        lit " AQABAAD/2wBDAAgGBgcGBQgH";
        lit "TEL;type=CELL:555-1234";
        lit "EMAIL;type=HOME:jane@example.org";
        lit "END:VCARD"].

(** A line of text in front of the first card. *)
Definition leading_note : str :=
  text [lit "exported contacts"; lit "BEGIN:VCARD"; lit "VERSION:3.0";
        lit "FN:Jane Doe"; lit "END:VCARD"].

(** An organization card that has neither a version line nor an end
    marker. *)
Definition open_org_card : str :=
  text [lit "BEGIN:VCARD"; lit "ORG:Acme"].

(** The lines of a card whose name starts with a colon. *)
Definition colon_name_card : list str :=
  [lit "BEGIN:VCARD"; lit "VERSION:3.0"; lit "N::Doe;John;;;";
   lit "ORG:Acme"; lit "END:VCARD"].

End Sample.

(* ================================================================== *)
(** ** The primitives on examples *)
(* ================================================================== *)

Example split_ex : split 59%N (lit "a;;b;") = [lit "a"; []; lit "b"; []].
Proof. reflexivity. Qed.

Example sub_item_ex :
  sub_item (lit "ADR") (lit "item12.ADR;type=HOME:;;x") = lit "ADR;type=HOME:;;x".
Proof. reflexivity. Qed.

Example sub_type_ex :
  sub_type (lit "TEL;tYpe=CELL;type=;Type=pref:555") = lit "TEL;TYPE=CELL;type=;TYPE=pref:555".
Proof. reflexivity. Qed.

(* ================================================================== *)
(** ** Exceptions: the missing version line *)
(* ================================================================== *)

Lemma bind_ok (A B : Type) (r : result A) (k : A -> result B) (b : B) :
  bind r k = Ok b <-> exists a, r = Ok a /\ k a = Ok b.
Proof.
  destruct r as [a | e]; simpl; split.
  - intros H; exists a; split; [reflexivity | exact H].
  - intros [a' [Ha Hk]]; inversion Ha; subst; exact Hk.
  - discriminate.
  - intros [a' [Ha _]]; discriminate.
Qed.

(** The per-card transformation raises exactly when the card is classified
    as an organization and the rewrite pass left no version line. *)
Lemma transform_lines_raises (s : settings) (lines : list str) :
  transform_lines s lines = Raise StopIteration <->
  is_org lines = true /\
  find_index (startswith VERSION_) (rewrite_pass s lines) = None.
Proof.
  unfold transform_lines, add_kind, bind.
  destruct (is_org lines).
  - destruct (find_index (startswith VERSION_) (rewrite_pass s lines));
      cbv beta iota.
    + split; [intros H; discriminate H | intros [_ H]; discriminate H].
    + split; [intros _; split; reflexivity | reflexivity].
  - cbv beta iota.
    split; [intros H; discriminate H | intros [H _]; discriminate H].
Qed.

(** C1: the conversion is claimed to return a string for every input text.
    On a company card that has no version line the lookup of the version
    index at line 158 finds nothing and the conversion raises
    [StopIteration], whatever the two settings are. *)
Theorem convert_raises_without_version_line :
  forall s : settings,
    convert_vcard_3_to_4 Sample.company_no_version s = Raise StopIteration.
Proof.
  intros [[] []]; vm_compute; reflexivity.
Qed.

(* ================================================================== *)
(** ** Photo removal *)
(* ================================================================== *)

(** What line 100 tests instead: a leading space or a leading base64
    character. *)
Lemma photo_rule_skipping (s : settings) (line : str) :
  remove_photos s = true ->
  startswith (lit "PHOTO;") line = false ->
  photo_rule s true line =
    if startswith (lit " ") line || match_base64_start line
    then Skip true else Proceed false.
Proof.
  intros Hp Hs. unfold photo_rule. rewrite Hp, Hs. reflexivity.
Qed.

(** C2: with photo removal on, the lines after a photo are claimed to be
    dropped only while they are continuation lines.  The telephone and
    e-mail lines below are no continuation lines, and the end marker of the
    input is none either, yet all three are dropped: only the version line
    survives, and the end marker of the output is the synthesized one. *)
Theorem photo_removal_drops_following_fields :
  forall fn : bool,
    continuation_line_spec (lit "TEL;type=CELL:555-1234") = false /\
    continuation_line_spec (lit "EMAIL;type=HOME:jane@example.org") = false /\
    rewrite_pass (Settings fn true) (card_lines Sample.photo_card)
      = [lit "BEGIN:VCARD"; lit "VERSION:4.0"] /\
    convert_vcard_3_to_4 Sample.photo_card (Settings fn true)
      = Ok (text [lit "BEGIN:VCARD"; lit "VERSION:4.0"; lit "END:VCARD"]).
Proof.
  intros []; vm_compute; repeat split.
Qed.

(* ================================================================== *)
(** ** The splitter and text in front of the first card *)
(* ================================================================== *)

(** C4: the number of output blocks is claimed to equal the number of
    begin-marker lines.  The empty input has no begin marker and yields one
    block; an input with one card and a line in front of it yields two. *)
Theorem block_count_exceeds_begin_markers :
  forall s : settings,
    begin_marker_count [] = 0 /\
    converted_blocks [] s = Ok [text [lit "BEGIN:VCARD"; lit "END:VCARD"]] /\
    begin_marker_count Sample.leading_note = 1 /\
    exists b1 b2, converted_blocks Sample.leading_note s = Ok [b1; b2].
Proof.
  intros [[] []]; vm_compute; repeat split; eexists; eexists; reflexivity.
Qed.

(** C5: lines in front of the first begin marker are claimed to be dropped.
    The loop variable [current_vcard] starts as the empty list, so the
    test [is not None] at line 58 lets such a line open a card of its own:
    it is in the first raw card and in the output. *)
Theorem leading_line_becomes_a_card :
  forall fn ph : bool,
    split_vcards Sample.leading_note
      = [text [lit "exported contacts"; lit "END:VCARD"];
         text [lit "BEGIN:VCARD"; lit "VERSION:3.0"; lit "FN:Jane Doe";
               lit "END:VCARD"]] /\
    exists rest,
      convert_vcard_3_to_4 Sample.leading_note (Settings fn ph)
        = Ok (text [lit "BEGIN:VCARD"; lit "exported contacts"; lit "END:VCARD"]
              ++ rest).
Proof.
  intros [] []; vm_compute; (split; [reflexivity | eexists; reflexivity]).
Qed.

(* ================================================================== *)
(** ** Facts about the string primitives *)
(* ================================================================== *)

Section StringFacts.

Lemma startswith_iff (p s : str) :
  startswith p s = true <-> exists r, s = p ++ r.
Proof.
  revert s; induction p as [| a p IH]; intros s; simpl.
  - split; [intros _; exists s; reflexivity | reflexivity].
  - destruct s as [| b s].
    + split; [discriminate | intros [r Hr]; discriminate Hr].
    + rewrite andb_true_iff, N.eqb_eq, IH. split.
      * intros [Hab [r Hr]]; subst; exists r; reflexivity.
      * intros [r Hr]; injection Hr as Hb Hs; subst.
        split; [reflexivity | exists r; reflexivity].
Qed.

Lemma startswith_app (p r : str) : startswith p (p ++ r) = true.
Proof. apply startswith_iff; exists r; reflexivity. Qed.

Lemma contains_here (p s : str) :
  startswith p s = true -> contains p s = true.
Proof. intros H; destruct s; simpl; rewrite H; reflexivity. Qed.

Lemma contains_cons (p : str) (c : char) (s : str) :
  contains p s = true -> contains p (c :: s) = true.
Proof. intros H; simpl; rewrite H; apply orb_true_r. Qed.

Lemma contains_app_r (p a s : str) :
  contains p s = true -> contains p (a ++ s) = true.
Proof.
  intros H; induction a as [| c a IH]; [exact H |].
  simpl app. apply contains_cons, IH.
Qed.

(** *** [split] and [join] *)

Lemma split_not_nil (sep : char) (s : str) : split sep s <> [].
Proof.
  destruct s as [| c r]; simpl; [discriminate |].
  destruct (c =? sep)%N; [discriminate |].
  destruct (split sep r); discriminate.
Qed.

Lemma split_cons_sep (sep : char) (s : str) :
  split sep (sep :: s) = [] :: split sep s.
Proof. simpl; rewrite N.eqb_refl; reflexivity. Qed.

Lemma split_cons_other (sep c : char) (s : str) :
  c <> sep ->
  exists h t, split sep s = h :: t /\ split sep (c :: s) = (c :: h) :: t.
Proof.
  intros Hc. simpl. apply N.eqb_neq in Hc; rewrite Hc.
  destruct (split sep s) as [| h t] eqn:E.
  - exfalso; exact (split_not_nil _ _ E).
  - exists h, t; split; reflexivity.
Qed.

(** The pieces hold the characters of the string, and never the
    separator. *)
Lemma split_pieces (sep : char) (s part : str) :
  In part (split sep s) ->
  ~ In sep part /\ forall c, In c part -> In c s.
Proof.
  revert part; induction s as [| c r IH]; intros part Hin.
  - simpl in Hin; destruct Hin as [<- | []]. split; [intros [] | intros c []].
  - destruct (N.eq_dec c sep) as [-> | Hc].
    + rewrite split_cons_sep in Hin. destruct Hin as [<- | Hin].
      * split; [intros [] | intros c []].
      * destruct (IH _ Hin) as [H1 H2]. split; [exact H1 |].
        intros c Hc; right; apply H2, Hc.
    + destruct (split_cons_other r Hc) as [h [t [E1 E2]]].
      rewrite E2 in Hin. destruct Hin as [<- | Hin].
      * destruct (IH h) as [H1 H2]; [rewrite E1; left; reflexivity |].
        split.
        -- intros [Heq | Hh]; [exact (Hc Heq) | exact (H1 Hh)].
        -- intros c' [<- | Hc']; [left; reflexivity | right; apply H2, Hc'].
      * destruct (IH part) as [H1 H2]; [rewrite E1; right; exact Hin |].
        split; [exact H1 | intros c' Hc'; right; apply H2, Hc'].
Qed.

Lemma split_without_sep (sep : char) (s : str) :
  ~ In sep s -> split sep s = [s].
Proof.
  induction s as [| c r IH]; intros Hn; [reflexivity |].
  assert (Hc : c <> sep) by (intros ->; apply Hn; left; reflexivity).
  destruct (split_cons_other r Hc) as [h [t [E1 E2]]].
  rewrite E2. rewrite IH in E1 by (intros Hr; apply Hn; right; exact Hr).
  injection E1 as <- <-. reflexivity.
Qed.

Lemma split_app_sep (sep : char) (a b : str) :
  ~ In sep a -> split sep (a ++ sep :: b) = a :: split sep b.
Proof.
  induction a as [| c a IH]; intros Hn.
  - apply split_cons_sep.
  - assert (Hc : c <> sep) by (intros ->; apply Hn; left; reflexivity).
    simpl app.
    destruct (split_cons_other (a ++ sep :: b) Hc) as [h [t [E1 E2]]].
    rewrite E2. rewrite IH in E1 by (intros Hr; apply Hn; right; exact Hr).
    injection E1 as <- <-. reflexivity.
Qed.

(** Splitting what was joined gives the pieces back. *)
Lemma split_join (sep : char) (parts : list str) :
  parts <> [] ->
  Forall (fun p => ~ In sep p) parts ->
  split sep (join [sep] parts) = parts.
Proof.
  induction parts as [| p rest IH]; intros Hne Hall; [contradiction |].
  inversion Hall as [| ? ? Hp Hrest]; subst.
  destruct rest as [| q rest].
  - simpl. apply split_without_sep, Hp.
  - change (join [sep] (p :: q :: rest)) with (p ++ sep :: join [sep] (q :: rest)).
    rewrite split_app_sep by exact Hp.
    rewrite IH; [reflexivity | discriminate | exact Hrest].
Qed.

Lemma join_chars (sep : str) (parts : list str) (c : char) :
  In c (join sep parts) ->
  In c sep \/ exists p, In p parts /\ In c p.
Proof.
  induction parts as [| p rest IH]; intros Hin; [destruct Hin |].
  destruct rest as [| q rest].
  - right; exists p; split; [left; reflexivity | exact Hin].
  - change (join sep (p :: q :: rest)) with (p ++ sep ++ join sep (q :: rest)) in Hin.
    apply in_app_or in Hin. destruct Hin as [Hin | Hin].
    + right; exists p; split; [left; reflexivity | exact Hin].
    + apply in_app_or in Hin. destruct Hin as [Hin | Hin]; [left; exact Hin |].
      destruct (IH Hin) as [H | [p' [Hp' Hc]]]; [left; exact H |].
      right; exists p'; split; [right; exact Hp' | exact Hc].
Qed.

(** *** [strip] *)

Lemma lstrip_head (s : str) :
  lstrip s = [] \/ exists c r, lstrip s = c :: r /\ isspace c = false.
Proof.
  induction s as [| c r IH]; [left; reflexivity |].
  simpl. destruct (isspace c) eqn:E; [exact IH |].
  right; exists c, r; split; [reflexivity | exact E].
Qed.

Lemma lstrip_nil_iff (s : str) :
  lstrip s = [] <-> forallb isspace s = true.
Proof.
  induction s as [| c r IH]; simpl; [split; reflexivity |].
  destruct (isspace c); simpl; [exact IH |].
  split; discriminate.
Qed.

(** [not s.strip()] holds exactly for the strings made of whitespace. *)
Lemma strip_falsy_iff (s : str) :
  falsy (strip s) = true <-> forall c, In c s -> isspace c = true.
Proof.
  rewrite <- forallb_forall.
  assert (Hf : forall t : str, falsy t = true <-> t = []).
  { intros [| ? ?]; simpl; split; congruence. }
  rewrite Hf. unfold strip, rstrip. split.
  - intros H.
    assert (H' : lstrip (rev (lstrip s)) = []).
    { rewrite <- (rev_involutive (lstrip (rev (lstrip s)))), H; reflexivity. }
    apply lstrip_nil_iff in H'.
    destruct (lstrip_head s) as [E | [c [r [E Hc]]]].
    + apply lstrip_nil_iff, E.
    + rewrite E in H'. rewrite forallb_forall in H'.
      rewrite (H' c) in Hc; [discriminate |].
      apply in_rev. rewrite rev_involutive. left; reflexivity.
  - intros H. apply lstrip_nil_iff in H. rewrite H. reflexivity.
Qed.

End StringFacts.

(* ================================================================== *)
(** ** The structured-name field *)
(* ================================================================== *)

Section StructuredName.

Lemma N_chars : N_ = [78%N; 58%N].
Proof. reflexivity. Qed.

(** A line that starts with [N:] has a second piece when split on the
    colon, so [line.split(':')[1]] raises no [IndexError]. *)
Lemma split_colon_second (line : str) :
  startswith N_ line = true ->
  exists v, line = N_ ++ v /\
            split colon line = lit "N" :: split colon v /\
            nth 1 (split colon line) [] = hd [] (split colon v).
Proof.
  intros H. apply startswith_iff in H. destruct H as [v ->].
  exists v. split; [reflexivity |].
  assert (E : split colon (N_ ++ v) = lit "N" :: split colon v).
  { change (N_ ++ v) with (78%N :: colon :: v).
    destruct (@split_cons_other colon 78%N (colon :: v)) as [h [t [E1 E2]]];
      [discriminate |].
    rewrite split_cons_sep in E1. injection E1 as <- <-. exact E2. }
  split; [exact E |].
  rewrite E. destruct (split colon v); reflexivity.
Qed.

Lemma name_components_of_value (v : str) :
  ~ In colon v -> name_components (N_ ++ v) = split semicolon v.
Proof.
  intros Hv. unfold name_components.
  destruct (@split_colon_second (N_ ++ v) (startswith_app _ _))
    as [v' [Ev [_ E]]].
  apply app_inv_head in Ev; subst v'.
  rewrite E, (split_without_sep _ _ Hv). reflexivity.
Qed.

Lemma name_components_chars (line part : str) (c : char) :
  In part (name_components line) -> In c part ->
  c <> semicolon /\ c <> colon.
Proof.
  unfold name_components. intros Hp Hc.
  destruct (split_pieces _ _ _ Hp) as [Hsemi Hsub].
  split.
  - intros ->; exact (Hsemi Hc).
  - intros ->. specialize (Hsub _ Hc).
    destruct (nth_in_or_default 1 (split colon line) []) as [Hn | Hn].
    + destruct (split_pieces _ _ _ Hn) as [Hcol _]. exact (Hcol Hsub).
    + rewrite Hn in Hsub. destruct Hsub.
Qed.

(** *** Dropping the trailing empty components *)

Lemma pop_empty_spec (l : list str) :
  exists k, l = repeat [] k ++ pop_empty l /\
            (pop_empty l = [] \/
             exists h t, pop_empty l = h :: t /\ h <> []).
Proof.
  induction l as [| p l IH].
  - exists 0; split; [reflexivity | left; reflexivity].
  - destruct p as [| c p].
    + destruct IH as [k [E H]]. exists (S k). simpl.
      split; [f_equal; exact E | exact H].
    + exists 0. split; [reflexivity |].
      right; exists (c :: p), l; split; [reflexivity | discriminate].
Qed.

Lemma rev_repeat (A : Type) (x : A) (k : nat) : rev (repeat x k) = repeat x k.
Proof.
  induction k as [| k IH]; [reflexivity |].
  simpl. rewrite IH. symmetry. apply repeat_cons.
Qed.

(** The components kept are the given ones without a trailing run of
    empty ones, and the last component kept is not empty. *)
Lemma drop_trailing_empty_spec (parts : list str) :
  exists k, parts = drop_trailing_empty parts ++ repeat [] k /\
            (drop_trailing_empty parts = [] \/
             last (drop_trailing_empty parts) [] <> []).
Proof.
  unfold drop_trailing_empty.
  destruct (pop_empty_spec (rev parts)) as [k [E H]].
  exists k. split.
  - rewrite <- (rev_involutive parts) at 1. rewrite E at 1.
    rewrite rev_app_distr, rev_repeat. reflexivity.
  - destruct H as [-> | [h [t [-> Hh]]]]; [left; reflexivity |].
    right. simpl. rewrite last_last. exact Hh.
Qed.

Lemma drop_trailing_empty_incl (parts : list str) (p : str) :
  In p (drop_trailing_empty parts) -> In p parts.
Proof.
  intros H. destruct (drop_trailing_empty_spec parts) as [k [E _]].
  rewrite E. apply in_or_app; left; exact H.
Qed.

Lemma padded_components_chars (line part : str) (c : char) :
  In part (padded_components line) -> In c part ->
  c <> semicolon /\ c <> colon.
Proof.
  unfold padded_components, kept_components. intros Hp Hc.
  apply in_app_or in Hp. destruct Hp as [Hp | Hp].
  - apply drop_trailing_empty_incl in Hp.
    exact (name_components_chars _ _ _ Hp Hc).
  - apply repeat_spec in Hp; subst part. destruct Hc.
Qed.

Lemma padded_components_length (line : str) :
  List.length (padded_components line)
  = Nat.max 5 (List.length (kept_components line)).
Proof.
  unfold padded_components. rewrite length_app, repeat_length. lia.
Qed.

Lemma normalize_n_components (line : str) :
  name_components (normalize_n line) = padded_components line.
Proof.
  change (normalize_n line)
    with (N_ ++ join [semicolon] (padded_components line)).
  rewrite name_components_of_value.
  - apply split_join.
    + intros E. pose proof (padded_components_length line) as L.
      rewrite E in L. cbn [List.length] in L. lia.
    + apply Forall_forall. intros p Hp Hc.
      destruct (padded_components_chars _ _ _ Hp Hc) as [H _]. apply H; reflexivity.
  - intros Hc. apply join_chars in Hc. destruct Hc as [Hc | [p [Hp Hc]]].
    + destruct Hc as [Hc | []]. discriminate Hc.
    + destruct (padded_components_chars _ _ _ Hp Hc) as [_ H]. apply H; reflexivity.
Qed.

End StructuredName.

(* ================================================================== *)
(** ** Facts about the substitutions *)
(* ================================================================== *)

Unset Implicit Arguments.

Section Substitution.

Variable m : str -> option (str * nat).

Lemma re_sub_skip (k : nat) (s : str) :
  re_sub m k s = re_sub m 0 (skipn k s).
Proof.
  revert k; induction s as [| c r IH]; intros k.
  - destruct k; reflexivity.
  - destruct k as [| k]; [reflexivity |]. simpl. apply IH.
Qed.

Lemma re_sub_no_match (c : char) (r : str) :
  m (c :: r) = None -> re_sub m 0 (c :: r) = c :: re_sub m 0 r.
Proof. intros H; simpl; rewrite H; reflexivity. Qed.

Lemma re_sub_match (c : char) (r out : str) (n : nat) :
  m (c :: r) = Some (out, n) ->
  re_sub m 0 (c :: r) = out ++ re_sub m 0 (skipn (pred n) r).
Proof. intros H; simpl; rewrite H, re_sub_skip; reflexivity. Qed.

(** Induction along the scan of [re_sub]. *)
Lemma re_sub_scan (P : str -> str -> Prop) :
  P [] [] ->
  (forall c r, m (c :: r) = None ->
               P r (re_sub m 0 r) -> P (c :: r) (c :: re_sub m 0 r)) ->
  (forall c r out n, m (c :: r) = Some (out, n) ->
               P (skipn (pred n) r) (re_sub m 0 (skipn (pred n) r)) ->
               P (c :: r) (out ++ re_sub m 0 (skipn (pred n) r))) ->
  forall s, P s (re_sub m 0 s).
Proof.
  intros Hnil Hnone Hsome s.
  remember (List.length s) as len eqn:Hlen.
  revert s Hlen. induction len as [len IH] using lt_wf_ind. intros s Hlen.
  destruct s as [| c r]; [exact Hnil |].
  destruct (m (c :: r)) as [[out n] |] eqn:E.
  - rewrite (re_sub_match _ _ _ _ E). apply Hsome; [exact E |].
    apply (IH (List.length (skipn (pred n) r))); [| reflexivity].
    rewrite length_skipn. subst len. simpl. lia.
  - rewrite (re_sub_no_match _ _ E). apply Hnone; [exact E |].
    apply (IH (List.length r)); [subst len; simpl; lia | reflexivity].
Qed.

(** Two leading characters that start neither a match nor a replacement
    are there after the substitution exactly when they were there
    before. *)
Lemma re_sub_first_two (hin hout : char -> Prop) (a b : char) (s : str) :
  heads m hin hout ->
  ~ hin a -> ~ hout a -> ~ hin b -> ~ hout b ->
  startswith [a; b] (re_sub m 0 s) = startswith [a; b] s.
Proof.
  intros Hm Ha Ha' Hb Hb'.
  assert (Hfirst : forall (x : char) (t : str) out n,
             ~ hin x -> ~ hout x -> m t = Some (out, n) ->
             (exists c r, t = c :: r /\ (x =? c)%N = false) /\
             (exists h u, out = h :: u /\ (x =? h)%N = false)).
  { intros x t out n Hx Hx' E. destruct (Hm _ _ _ E) as [[c [r [-> Hc]]] [h [u [-> Hh]]]].
    split; [exists c, r | exists h, u]; (split; [reflexivity |]);
      apply N.eqb_neq; intros ->; contradiction. }
  destruct s as [| c r]; [reflexivity |].
  destruct (m (c :: r)) as [[out n] |] eqn:E.
  - rewrite (re_sub_match _ _ _ _ E).
    destruct (Hfirst a _ _ _ Ha Ha' E) as [[c' [r' [Es Hc]]] [h [u [-> Hh]]]].
    injection Es as <- <-. simpl. rewrite Hc, Hh. reflexivity.
  - rewrite (re_sub_no_match _ _ E). simpl.
    destruct (a =? c)%N; [| reflexivity]. simpl.
    destruct r as [| d r]; [reflexivity |].
    destruct (m (d :: r)) as [[out n] |] eqn:E'.
    + rewrite (re_sub_match _ _ _ _ E').
      destruct (Hfirst b _ _ _ Hb Hb' E') as [[c' [r' [Es Hc]]] [h [u [-> Hh]]]].
      injection Es as <- <-. simpl. rewrite Hc, Hh. reflexivity.
    + rewrite (re_sub_no_match _ _ E'). reflexivity.
Qed.

End Substitution.

Lemma strip_prefix_iff (p s r : str) :
  strip_prefix p s = Some r <-> s = p ++ r.
Proof.
  revert s; induction p as [| a p IH]; intros s; simpl.
  - split; [intros H; injection H as ->; reflexivity | intros ->; reflexivity].
  - destruct s as [| b s]; [split; discriminate |].
    destruct (N.eqb_spec a b) as [-> | Hab].
    + rewrite IH. split; [intros ->; reflexivity | intros H; injection H as ->; reflexivity].
    + split; [discriminate | intros H; injection H as H _; congruence].
Qed.

Lemma span_spec (p : char -> bool) (s a b : str) :
  span p s = (a, b) ->
  s = a ++ b /\ forallb p a = true /\
  (b = [] \/ exists c r, b = c :: r /\ p c = false).
Proof.
  revert a b; induction s as [| c r IH]; intros a b E; simpl in E.
  - injection E as <- <-. repeat split. left; reflexivity.
  - destruct (p c) eqn:Hp.
    + destruct (span p r) as [a' b'] eqn:E'. injection E as <- <-.
      destruct (IH _ _ eq_refl) as [-> [Hall Hb]].
      repeat split; [simpl; rewrite Hp; exact Hall | exact Hb].
    + injection E as <- <-. repeat split.
      right; exists c, r; split; [reflexivity | exact Hp].
Qed.

(** A match of [item\d+\.TOK]: the text matched and what is left. *)
Lemma match_item_some (tok s out : str) (n : nat) :
  match_item tok s = Some (out, n) ->
  exists ds rest,
    s = (lit "item" ++ ds ++ [46%N]) ++ tok ++ rest /\
    ds <> [] /\ forallb isdecimal ds = true /\
    out = tok /\
    n = List.length ((lit "item" ++ ds ++ [46%N]) ++ tok).
Proof.
  unfold match_item. intros H.
  destruct (strip_prefix (lit "item") s) as [r |] eqn:E1; [| discriminate].
  apply strip_prefix_iff in E1.
  destruct (span isdecimal r) as [ds r'] eqn:E2.
  destruct (span_spec _ _ _ _ E2) as [-> [Hds _]].
  destruct ds as [| d ds]; [discriminate |]. cbn [falsy] in H.
  destruct (strip_prefix (46%N :: tok) r') as [rest |] eqn:E3; [| discriminate].
  apply strip_prefix_iff in E3. injection H as <- <-.
  exists (d :: ds), rest. subst s r'.
  repeat split; try assumption; try discriminate.
  - rewrite <- !app_assoc. reflexivity.
  - rewrite !length_app. simpl. reflexivity.
Qed.

Lemma strip_prefix_ignorecase_some (p s r : str) :
  strip_prefix_ignorecase p s = Some r ->
  exists q, s = q ++ r /\ Forall2 (fun a b => eq_ignorecase a b = true) p q.
Proof.
  revert s; induction p as [| a p IH]; intros s H; simpl in H.
  - injection H as ->. exists []; split; [reflexivity | constructor].
  - destruct s as [| b s]; [discriminate |].
    destruct (eq_ignorecase a b) eqn:E; [| discriminate].
    destruct (IH _ H) as [q [-> Hq]].
    exists (b :: q); split; [reflexivity | constructor; assumption].
Qed.

(** A match of [type=([^;]+)]: the five characters of the key, the group
    and what is left. *)
Lemma match_type_some (s out : str) (n : nat) :
  match_type s = Some (out, n) ->
  exists q g rest,
    s = q ++ g ++ rest /\
    Forall2 (fun a b => eq_ignorecase a b = true) (lit "type=") q /\
    g <> [] /\
    out = lit "TYPE=" ++ g /\
    n = List.length (q ++ g).
Proof.
  unfold match_type. intros H.
  destruct (strip_prefix_ignorecase (lit "type=") s) as [r |] eqn:E1;
    [| discriminate].
  destruct (strip_prefix_ignorecase_some _ _ _ E1) as [q [-> Hq]].
  destruct (span (fun c => negb (c =? 59)%N) r) as [g rest] eqn:E2.
  destruct (span_spec _ _ _ _ E2) as [-> _].
  destruct g as [| c g]; [discriminate |]. cbn [falsy] in H.
  injection H as <- <-.
  exists q, (c :: g), rest. repeat split; try assumption; try discriminate.
  rewrite length_app. apply Forall2_length in Hq. rewrite <- Hq. reflexivity.
Qed.

Lemma match_item_heads (tok : str) (h : char) (t : str) :
  tok = h :: t ->
  heads (match_item tok) (fun c => c = 105%N) (fun c => c = h).
Proof.
  intros -> s out n E.
  destruct (match_item_some _ _ _ _ E) as [ds [rest [-> [_ [_ [-> _]]]]]].
  split.
  - eexists; eexists; split; [reflexivity | reflexivity].
  - exists h, t; split; reflexivity.
Qed.

Lemma match_type_heads :
  heads match_type (fun c => c = 116%N \/ c = 84%N) (fun c => c = 84%N).
Proof.
  intros s out n E.
  destruct (match_type_some _ _ _ E) as [q [g [rest [-> [Hq [_ [-> _]]]]]]].
  split.
  - inversion Hq as [| a b p' q' Hab Hrest]; subst.
    exists b, (q' ++ g ++ rest). split; [reflexivity |].
    unfold eq_ignorecase in Hab. apply orb_true_iff in Hab.
    destruct Hab as [Hab | Hab].
    + apply N.eqb_eq in Hab. left; exact Hab.
    + apply andb_true_iff in Hab. destruct Hab as [_ Hab].
      apply N.eqb_eq in Hab. right; exact Hab.
  - eexists; eexists; split; reflexivity.
Qed.

(* ================================================================== *)
(** ** Lines that start with [N] *)
(* ================================================================== *)

(** The address rule leaves a leading [N:] or [N;] in place. *)
Lemma address_rule_keeps_name_prefix (b : char) (line : str) :
  b = colon \/ b = semicolon ->
  startswith [78%N; b] (sub_type (sub_item ADR line))
  = startswith [78%N; b] line.
Proof.
  intros Hb. unfold sub_type, sub_item.
  rewrite (re_sub_first_two match_type _ _ 78%N b _ match_type_heads).
  - apply (re_sub_first_two (match_item ADR) _ _ 78%N b _
             (match_item_heads ADR 65%N (lit "DR") eq_refl)).
    + discriminate.
    + discriminate.
    + destruct Hb as [-> | ->]; discriminate.
    + destruct Hb as [-> | ->]; discriminate.
  - intros [H | H]; discriminate H.
  - discriminate.
  - destruct Hb as [-> | ->]; intros [H | H]; discriminate H.
  - destruct Hb as [-> | ->]; discriminate.
Qed.

(** On a line that starts with [N:] or [N;] the telephone, e-mail and URL
    rules do nothing. *)
Lemma rewrite_line_name (b : char) (line : str) :
  b = colon \/ b = semicolon ->
  startswith [78%N; b] line = true ->
  startswith [78%N; b] (address_rule line) = true /\
  rewrite_line line
  = if startswith N_ (address_rule line)
    then normalize_n (address_rule line)
    else address_rule line.
Proof.
  intros Hb Hs.
  assert (H1 : startswith [78%N; b] (address_rule line) = true).
  { unfold address_rule. destruct (contains ADR line); [| exact Hs].
    rewrite address_rule_keeps_name_prefix; assumption. }
  split; [exact H1 |].
  unfold rewrite_line, name_rule, url_rule, email_rule, telephone_rule.
  apply startswith_iff in H1. destruct H1 as [r ->].
  reflexivity.
Qed.

Lemma name_prefix_colon (line : str) :
  startswith [78%N; colon] line = startswith N_ line.
Proof. reflexivity. Qed.

Example structured_name_examples :
  rewrite_line (lit "N:Smith;;;;;;") = lit "N:Smith;;;;" /\
  rewrite_line (lit "N:Smith;John;;;") = lit "N:Smith;John;;;" /\
  rewrite_line (lit "N:;;;;") = lit "N:;;;;" /\
  rewrite_line (lit "N:Smith;John") = lit "N:Smith;John;;;".
Proof. vm_compute. repeat split. Qed.

(* ================================================================== *)
(** ** Classification *)
(* ================================================================== *)

Lemma n_parts_find (lines : list str) :
  n_parts lines
  = match find (startswith N_) lines with
    | Some line => name_components line
    | None => []
    end.
Proof.
  unfold n_parts, n_field.
  destruct (find (startswith N_) lines) as [line |] eqn:E; [| reflexivity].
  apply find_some in E. destruct E as [_ E].
  apply startswith_iff in E. destruct E as [r ->]. reflexivity.
Qed.

Example classification_examples :
  is_org [lit "BEGIN:VCARD"; lit "N:;;;;"; lit "ORG:Acme"; lit "END:VCARD"] = true /\
  is_org [lit "BEGIN:VCARD"; lit "ORG:Acme"; lit "END:VCARD"] = true /\
  is_org [lit "BEGIN:VCARD"; lit "N:Doe;;;;"; lit "ORG:Acme"; lit "END:VCARD"] = false /\
  is_org [lit "BEGIN:VCARD"; lit "N:;;;;"; lit "END:VCARD"] = false.
Proof. vm_compute. repeat split. Qed.

(* ================================================================== *)
(** ** Structured-name lines with parameters *)
(* ================================================================== *)

Lemma find_skips (A : Type) (p : A -> bool) (before after : list A) (x : A) :
  p x = false -> find p (before ++ x :: after) = find p (before ++ after).
Proof.
  intros Hx. induction before as [| y before IH]; simpl.
  - rewrite Hx. reflexivity.
  - destruct (p y); [reflexivity | exact IH].
Qed.

Lemma existsb_skips (A : Type) (p : A -> bool) (before after : list A) (x : A) :
  p x = false -> existsb p (before ++ x :: after) = existsb p (before ++ after).
Proof.
  intros Hx. rewrite !existsb_app. simpl. rewrite Hx. reflexivity.
Qed.

Lemma name_with_parameters (line : str) :
  startswith (lit "N;") line = true ->
  exists r, line = 78%N :: semicolon :: r.
Proof.
  intros H. apply startswith_iff in H. destruct H as [r ->].
  exists r. reflexivity.
Qed.

(** C10: a line that starts with [N;] is not looked at by the emptiness
    test of the classification (the card is classified as it would be
    without the line); the [N:] rule does not apply to it, only the
    address rule can change it; and when the photo rule is not skipping
    and the line holds neither the address token nor a vendor marker, the
    loop appends it unchanged. *)
Theorem name_with_parameters_passes_through
  (s : settings) (st : loop_state) (line : str) :
  startswith (lit "N;") line = true ->
  (forall before after,
     n_parts (before ++ line :: after) = n_parts (before ++ after) /\
     has_empty_n (before ++ line :: after) = has_empty_n (before ++ after) /\
     is_org (before ++ line :: after) = is_org (before ++ after)) /\
  rewrite_line line = address_rule line /\
  (remove_photos s && skip_photo st = false ->
   contains ADR line = false ->
   apple_specific line = false ->
   line_step s st line = LoopState (new_lines st ++ [line]) (skip_photo st)).
Proof.
  intros Hs. destruct (name_with_parameters line Hs) as [r ->].
  split; [| split].
  - intros before after.
    assert (Hn : n_parts (before ++ (78%N :: semicolon :: r) :: after)
                 = n_parts (before ++ after)).
    { rewrite !n_parts_find, find_skips; reflexivity. }
    assert (He : has_empty_n (before ++ (78%N :: semicolon :: r) :: after)
                 = has_empty_n (before ++ after)).
    { unfold has_empty_n; rewrite Hn; reflexivity. }
    split; [exact Hn |].
    split; [exact He |].
    unfold is_org. f_equal; [| f_equal; [exact He |]];
      apply existsb_skips; reflexivity.
  - destruct (rewrite_line_name semicolon (78%N :: semicolon :: r)
                (or_intror eq_refl) eq_refl) as [H1 H2].
    rewrite H2. apply startswith_iff in H1. destruct H1 as [r' ->].
    reflexivity.
  - intros Hphoto Hadr Happle.
    unfold line_step.
    assert (Hblank : falsy (strip (78%N :: semicolon :: r)) = false).
    { destruct (falsy (strip (78%N :: semicolon :: r))) eqn:E; [| reflexivity].
      rewrite strip_falsy_iff in E.
      specialize (E 78%N (or_introl eq_refl)). discriminate E. }
    rewrite Hblank.
    change (startswith BEGIN_VCARD (78%N :: semicolon :: r)) with false.
    cbn [orb].
    assert (Hrule : photo_rule s (skip_photo st) (78%N :: semicolon :: r)
                    = Proceed (skip_photo st)).
    { unfold photo_rule. destruct (remove_photos s); [| reflexivity].
      change (startswith (lit "PHOTO;") (78%N :: semicolon :: r)) with false.
      cbn [andb] in Hphoto. rewrite Hphoto. reflexivity. }
    rewrite Hrule.
    assert (Hfield : field_rules s (78%N :: semicolon :: r)
                     = Some (78%N :: semicolon :: r)).
    { unfold field_rules.
      change (startswith (lit "FN:") (78%N :: semicolon :: r)) with false.
      rewrite andb_false_r.
      change (startswith (lit "PRODID:-//Apple Inc.//") (78%N :: semicolon :: r))
        with false.
      change (startswith VERSION_ (78%N :: semicolon :: r)) with false.
      change (startswith X_ABShowAs_COMPANY (78%N :: semicolon :: r)) with false.
      cbv iota.
      destruct (rewrite_line_name semicolon (78%N :: semicolon :: r)
                  (or_intror eq_refl) eq_refl) as [_ H2].
      unfold address_rule in H2. rewrite Hadr in H2.
      change (startswith N_ (78%N :: semicolon :: r)) with false in H2.
      cbv iota in H2. rewrite H2, Happle. reflexivity. }
    rewrite Hfield. reflexivity.
Qed.

Lemma name_with_parameters_passes_through_witness :
  startswith (lit "N;") (lit "N;CHARSET=UTF-8:;;;;") = true /\
  is_org [lit "BEGIN:VCARD"; lit "N;CHARSET=UTF-8:;;;;"; lit "N:Doe;Jane;;;";
          lit "ORG:Acme"]
  = is_org [lit "BEGIN:VCARD"; lit "N:Doe;Jane;;;"; lit "ORG:Acme"] /\
  line_step (Settings true true) loop_init (lit "N;CHARSET=UTF-8:;;;;")
  = LoopState [lit "BEGIN:VCARD"; lit "N;CHARSET=UTF-8:;;;;"] false.
Proof.
  split; [reflexivity |].
  pose proof (name_with_parameters_passes_through (Settings true true) loop_init
                (lit "N;CHARSET=UTF-8:;;;;") eq_refl) as H.
  destruct H as [Hclass [_ Hstep]].
  split.
  - exact (proj2 (proj2 (Hclass [lit "BEGIN:VCARD"]
                           [lit "N:Doe;Jane;;;"; lit "ORG:Acme"]))).
  - exact (Hstep eq_refl eq_refl eq_refl).
Defined.

(* ================================================================== *)
(** ** The binary-address marker survives the rewriting rules *)
(* ================================================================== *)

Section MarkerKept.

Variable m : str -> option (str * nat).
Variable hin hout : char -> Prop.
Hypothesis m_heads : heads m hin hout.

(** A prefix none of whose characters can start a match is copied. *)
Lemma re_sub_keeps_prefix (p s : str) :
  (forall x, In x p -> ~ hin x) ->
  startswith p s = true -> startswith p (re_sub m 0 s) = true.
Proof.
  revert s; induction p as [| a p IH]; intros s Hp Hs; [reflexivity |].
  destruct s as [| b s]; [discriminate Hs |].
  simpl in Hs. apply andb_true_iff in Hs. destruct Hs as [Hab Hs].
  apply N.eqb_eq in Hab; subst b.
  destruct (m (a :: s)) as [[out n] |] eqn:E.
  - destruct (m_heads _ _ _ E) as [[c [r [Es Hc]]] _].
    injection Es as <- <-. exfalso. exact (Hp a (or_introl eq_refl) Hc).
  - rewrite (re_sub_no_match _ _ _ E). simpl. rewrite N.eqb_refl. simpl.
    apply IH; [intros x Hx; apply Hp; right; exact Hx | exact Hs].
Qed.

End MarkerKept.

Lemma contains_after (x : char) (p a b : str) :
  (forall c, In c a -> c <> x) ->
  contains (x :: p) (a ++ b) = true -> contains (x :: p) b = true.
Proof.
  intros Ha. induction a as [| c a IH]; intros H; [exact H |].
  simpl app in H.
  change (contains (x :: p) (c :: a ++ b))
    with (startswith (x :: p) (c :: a ++ b) || contains (x :: p) (a ++ b)) in H.
  apply orb_true_iff in H. destruct H as [H | H].
  - simpl in H. apply andb_true_iff in H. destruct H as [H _].
    apply N.eqb_eq in H. exfalso. exact (Ha c (or_introl eq_refl) (eq_sym H)).
  - apply IH; [intros c' Hc'; apply Ha; right; exact Hc' | exact H].
Qed.

Lemma skipn_length_app (A : Type) (a rest : list A) :
  skipn (List.length a) (a ++ rest) = rest.
Proof. induction a as [| x a IH]; [reflexivity | exact IH]. Qed.

Lemma skipn_matched (c : char) (r a rest : str) :
  a <> [] -> c :: r = a ++ rest ->
  skipn (pred (List.length a)) r = rest.
Proof.
  intros Ha E. destruct a as [| c' a]; [contradiction |].
  injection E as _ ->. simpl. apply skipn_length_app.
Qed.

Lemma decimal_not_X (ds : str) (c : char) :
  forallb isdecimal ds = true -> In c ds -> c <> 88%N.
Proof.
  intros Hds Hc ->. rewrite forallb_forall in Hds.
  specialize (Hds _ Hc). vm_compute in Hds. discriminate Hds.
Qed.

(** [re.sub(r'item\d+\.TOK', 'TOK', s)] keeps the marker, for the two
    tokens of the converter. *)
Lemma sub_item_keeps_marker (tok s : str) :
  tok = ADR \/ tok = URL ->
  contains X_ABADR s = true -> contains X_ABADR (sub_item tok s) = true.
Proof.
  intros Htok. unfold sub_item.
  apply (re_sub_scan (match_item tok)
           (fun s s' => contains X_ABADR s = true -> contains X_ABADR s' = true)).
  - intros H; exact H.
  - intros c r E IH H.
    change (contains X_ABADR (c :: r))
      with (startswith X_ABADR (c :: r) || contains X_ABADR r) in H.
    apply orb_true_iff in H. destruct H as [H | H].
    + apply contains_here. rewrite <- (re_sub_no_match _ _ _ E).
      assert (Hh : exists h t, tok = h :: t).
      { destruct Htok as [-> | ->]; eexists; eexists; reflexivity. }
      destruct Hh as [h [t Hh]].
      apply (re_sub_keeps_prefix _ _ _ (match_item_heads tok h t Hh)); [| exact H].
      intros x Hx ->. vm_compute in Hx. intuition discriminate.
    + apply contains_cons, IH, H.
  - intros c r out n E IH H.
    destruct (match_item_some _ _ _ _ E) as [ds [rest [Es [Hne [Hds [-> ->]]]]]].
    assert (Hskip : skipn (pred (List.length ((lit "item" ++ ds ++ [46%N]) ++ tok))) r
                    = rest).
    { apply (skipn_matched c); [| rewrite <- app_assoc; exact Es].
      intros E0. apply app_eq_nil in E0. destruct E0 as [E0 _]. discriminate E0. }
    rewrite Hskip in *.
    apply contains_app_r, IH.
    rewrite Es, app_assoc in H.
    apply (contains_after 88%N (lit "-ABADR:")
             ((lit "item" ++ ds ++ [46%N]) ++ tok) rest); [| exact H].
    intros x Hx. rewrite <- app_assoc in Hx.
    apply in_app_or in Hx. destruct Hx as [Hx | Hx].
    + intros ->. vm_compute in Hx. intuition discriminate.
    + apply in_app_or in Hx. destruct Hx as [Hx | Hx].
      * apply in_app_or in Hx. destruct Hx as [Hx | Hx].
        -- exact (decimal_not_X ds x Hds Hx).
        -- intros ->. vm_compute in Hx. intuition discriminate.
      * intros ->. destruct Htok as [-> | ->]; vm_compute in Hx;
          intuition discriminate.
Qed.

Lemma case_changed_refl (s : str) : Forall2 case_changed s s.
Proof. induction s; constructor; [left; reflexivity | assumption]. Qed.

Lemma eq_ignorecase_cases (a b : char) :
  eq_ignorecase a b = true ->
  b = a \/ (in_range 97%N 122%N a = true /\ b = (a - 32)%N).
Proof.
  unfold eq_ignorecase. intros H. apply orb_true_iff in H.
  destruct H as [H | H].
  - left. apply N.eqb_eq, H.
  - right. apply andb_true_iff in H. destruct H as [H1 H2].
    split; [exact H1 | apply N.eqb_eq, H2].
Qed.

Lemma type_key_case_changed (q : str) :
  Forall2 (fun a b => eq_ignorecase a b = true) (lit "type=") q ->
  Forall2 case_changed q (lit "TYPE=").
Proof.
  change (lit "type=") with [116%N; 121%N; 112%N; 101%N; 61%N].
  change (lit "TYPE=") with [84%N; 89%N; 80%N; 69%N; 61%N].
  intros H.
  inversion H as [| a1 b1 p1 q1 H1 R1]; subst; clear H.
  inversion R1 as [| a2 b2 p2 q2 H2 R2]; subst; clear R1.
  inversion R2 as [| a3 b3 p3 q3 H3 R3]; subst; clear R2.
  inversion R3 as [| a4 b4 p4 q4 H4 R4]; subst; clear R3.
  inversion R4 as [| a5 b5 p5 q5 H5 R5]; subst; clear R4.
  inversion R5; subst; clear R5.
  apply eq_ignorecase_cases in H1, H2, H3, H4, H5.
  destruct H5 as [-> | [H5 _]]; [| discriminate H5].
  apply Forall2_cons; [| apply Forall2_cons; [| apply Forall2_cons;
    [| apply Forall2_cons; [| apply Forall2_cons; [| apply Forall2_nil]]]]].
  - destruct H1 as [-> | [_ ->]]; [right | left]; vm_compute; tauto.
  - destruct H2 as [-> | [_ ->]]; [right | left]; vm_compute; tauto.
  - destruct H3 as [-> | [_ ->]]; [right | left]; vm_compute; tauto.
  - destruct H4 as [-> | [_ ->]]; [right | left]; vm_compute; tauto.
  - left; reflexivity.
Qed.

Lemma sub_type_case_changed (s : str) : Forall2 case_changed s (sub_type s).
Proof.
  unfold sub_type. apply (re_sub_scan match_type (Forall2 case_changed)).
  - constructor.
  - intros c r _ IH. constructor; [left; reflexivity | exact IH].
  - intros c r out n E IH.
    destruct (match_type_some _ _ _ E) as [q [g [rest [Es [Hq [Hg [-> ->]]]]]]].
    assert (Hskip : skipn (pred (List.length (q ++ g))) r = rest).
    { apply (skipn_matched c); [| rewrite <- app_assoc; exact Es].
      intros E0. apply app_eq_nil in E0. destruct E0 as [_ E0]. exact (Hg E0). }
    rewrite Hskip in *. rewrite Es, <- app_assoc.
    apply Forall2_app; [apply type_key_case_changed, Hq |].
    apply Forall2_app; [apply case_changed_refl | exact IH].
Qed.

Lemma case_changed_startswith (p s s' : str) :
  (forall x, In x p -> ~ In x [116%N; 121%N; 112%N; 101%N]) ->
  Forall2 case_changed s s' ->
  startswith p s = true -> startswith p s' = true.
Proof.
  intros Hp H. revert p Hp. induction H as [| c c' s s' Hc _ IH]; intros p Hp Hs.
  - exact Hs.
  - destruct p as [| a p]; [reflexivity |].
    simpl in Hs. apply andb_true_iff in Hs. destruct Hs as [Hac Hs].
    apply N.eqb_eq in Hac; subst c.
    destruct Hc as [-> | Hc].
    + simpl. rewrite N.eqb_refl. simpl.
      apply IH; [intros x Hx; apply Hp; right; exact Hx | exact Hs].
    + exfalso. exact (Hp a (or_introl eq_refl) Hc).
Qed.

Lemma case_changed_contains (p s s' : str) :
  (forall x, In x p -> ~ In x [116%N; 121%N; 112%N; 101%N]) ->
  Forall2 case_changed s s' ->
  contains p s = true -> contains p s' = true.
Proof.
  intros Hp H. induction H as [| c c' s s' Hc Hss IH]; intros Hs; [exact Hs |].
  change (contains p (c :: s)) with (startswith p (c :: s) || contains p s) in Hs.
  apply orb_true_iff in Hs. destruct Hs as [Hs | Hs].
  - apply contains_here.
    apply (case_changed_startswith p (c :: s)); [exact Hp | | exact Hs].
    constructor; assumption.
  - apply contains_cons, IH, Hs.
Qed.

Lemma sub_type_keeps_marker (s : str) :
  contains X_ABADR s = true -> contains X_ABADR (sub_type s) = true.
Proof.
  apply case_changed_contains; [| apply sub_type_case_changed].
  intros x Hx Hx'. vm_compute in Hx, Hx'.
  intuition (subst; discriminate).
Qed.

Lemma sub_type_name_prefix (b : char) (s : str) :
  b = colon \/ b = semicolon ->
  startswith [78%N; b] (sub_type s) = startswith [78%N; b] s.
Proof.
  intros Hb. unfold sub_type.
  apply (re_sub_first_two match_type _ _ 78%N b _ match_type_heads).
  - intros [H | H]; discriminate H.
  - discriminate.
  - destruct Hb as [-> | ->]; intros [H | H]; discriminate H.
  - destruct Hb as [-> | ->]; discriminate.
Qed.

Lemma sub_item_name_prefix (tok : str) (b : char) (s : str) :
  tok = ADR \/ tok = URL -> b = colon \/ b = semicolon ->
  startswith [78%N; b] (sub_item tok s) = startswith [78%N; b] s.
Proof.
  intros Htok Hb. unfold sub_item.
  assert (Hh : exists h t, tok = h :: t /\ (h = 65%N \/ h = 85%N)).
  { destruct Htok as [-> | ->]; eexists; eexists;
      (split; [reflexivity |]); [left | right]; reflexivity. }
  destruct Hh as [h [t [Hh Hcase]]].
  apply (re_sub_first_two (match_item tok) _ _ 78%N b _
           (match_item_heads tok h t Hh)).
  - discriminate.
  - destruct Hcase as [-> | ->]; discriminate.
  - destruct Hb as [-> | ->]; discriminate.
  - destruct Hb as [-> | ->]; destruct Hcase as [-> | ->]; discriminate.
Qed.

Lemma before_name_rule_prefix (line : str) :
  startswith N_ (before_name_rule line) = startswith N_ line.
Proof.
  rewrite <- !name_prefix_colon.
  unfold before_name_rule, url_rule, email_rule, telephone_rule, address_rule.
  repeat match goal with
         | |- context [if ?c then _ else _] => destruct c
         end;
    repeat first
      [ rewrite (sub_type_name_prefix colon) by (left; reflexivity)
      | rewrite (sub_item_name_prefix URL colon)
          by ((right; reflexivity) || (left; reflexivity))
      | rewrite (sub_item_name_prefix ADR colon) by (left; reflexivity) ];
    reflexivity.
Qed.

Lemma before_name_rule_marker (line : str) :
  contains X_ABADR line = true ->
  contains X_ABADR (before_name_rule line) = true.
Proof.
  intros H.
  assert (H1 : contains X_ABADR (address_rule line) = true).
  { unfold address_rule. destruct (contains ADR line); [| exact H].
    apply sub_type_keeps_marker, sub_item_keeps_marker; [left; reflexivity | exact H]. }
  assert (H2 : contains X_ABADR (telephone_rule (address_rule line)) = true).
  { unfold telephone_rule. destruct (startswith _ _); [| exact H1].
    apply sub_type_keeps_marker, H1. }
  assert (H3 : contains X_ABADR (email_rule (telephone_rule (address_rule line)))
               = true).
  { unfold email_rule. destruct (startswith _ _); [| exact H2].
    apply sub_type_keeps_marker, H2. }
  unfold before_name_rule, url_rule. destruct (startswith _ _); [| exact H3].
  apply sub_item_keeps_marker; [right; reflexivity | exact H3].
Qed.

Lemma apple_specific_marker (line : str) :
  contains X_ABADR line = true -> apple_specific line = true.
Proof.
  intros H. unfold apple_specific. cbn [existsb].
  fold X_ABADR. rewrite H. apply orb_true_iff; right; reflexivity.
Qed.

(* ================================================================== *)
(** ** The order of the rules *)
(* ================================================================== *)

Lemma field_rules_rewriting (s : settings) (line : str) :
  reaches_rewriting s line = true ->
  field_rules s line
  = if apple_specific (rewrite_line line) then None
    else Some (rewrite_line line).
Proof.
  unfold reaches_rewriting, field_rules. intros H.
  repeat (apply andb_true_iff in H; destruct H as [H ?]).
  repeat match goal with
         | H : negb ?b = true |- _ => apply negb_true_iff in H; rewrite H
         end.
  reflexivity.
Qed.

(** C3 (as stated) fails: the line below holds the address token and is
    not emitted; the vendor rule at line 151 drops it. *)
Lemma address_marker_line_dropped :
  contains ADR (lit "item1.X-ABADR:us") = true /\
  field_rules (Settings false false) (lit "item1.X-ABADR:us") = None /\
  rewrite_pass (Settings false false)
    [lit "BEGIN:VCARD"; lit "VERSION:3.0";
     lit "item1.ADR;type=HOME:;;1 Main St;Springfield;;;";
     lit "item1.X-ABADR:us"; lit "END:VCARD"]
  = [lit "BEGIN:VCARD"; lit "VERSION:4.0";
     lit "ADR;TYPE=HOME:;;1 Main St;Springfield;;;"; lit "END:VCARD"].
Proof.
  vm_compute. repeat split.
Qed.

(* ================================================================== *)
(** ** The organization marker *)
(* ================================================================== *)

Section FirstMatch.

Variable A : Type.
Variable p : A -> bool.

Lemma find_index_first (pre post : list A) (v : A) :
  (forall x, In x pre -> p x = false) -> p v = true ->
  find_index p (pre ++ v :: post) = Some (List.length pre).
Proof.
  intros Hpre Hv. induction pre as [| x pre IH]; simpl.
  - rewrite Hv. reflexivity.
  - rewrite (Hpre x (or_introl eq_refl)), IH; [reflexivity |].
    intros y Hy; apply Hpre; right; exact Hy.
Qed.

Lemma first_match_exists (l : list A) :
  existsb p l = true ->
  exists pre v post,
    l = pre ++ v :: post /\ (forall x, In x pre -> p x = false) /\ p v = true.
Proof.
  induction l as [| x l IH]; intros H; [discriminate H |].
  simpl in H. destruct (p x) eqn:E.
  - exists [], x, l. split; [reflexivity |]. split; [intros y [] | exact E].
  - destruct (IH H) as [pre [v [post [-> [Hpre Hv]]]]].
    exists (x :: pre), v, post. split; [reflexivity |].
    split; [| exact Hv].
    intros y [<- | Hy]; [exact E | apply Hpre, Hy].
Qed.

Lemma insert_after (pre post : list A) (v x : A) :
  insert (List.length pre + 1) x (pre ++ v :: post) = pre ++ v :: x :: post.
Proof.
  unfold insert. induction pre as [| y pre IH]; [reflexivity |].
  simpl. f_equal. exact IH.
Qed.

End FirstMatch.

Lemma count_line_app (line : str) (l1 l2 : list str) :
  count_line line (l1 ++ l2) = count_line line l1 + count_line line l2.
Proof. apply count_occ_app. Qed.

Lemma count_line_ensure_end (lines : list str) :
  count_line KIND_org (ensure_end lines) = count_line KIND_org lines.
Proof.
  unfold ensure_end. destruct (negb _); [| reflexivity].
  rewrite count_line_app. unfold count_line at 2. simpl.
  destruct (list_eq_dec N.eq_dec END_VCARD KIND_org) as [E | _];
    [discriminate E | apply Nat.add_0_r].
Qed.

Lemma count_line_insert (pre post : list str) (v : str) :
  count_line KIND_org (pre ++ v :: KIND_org :: post)
  = S (count_line KIND_org (pre ++ v :: post)).
Proof.
  change (pre ++ v :: KIND_org :: post) with (pre ++ [v] ++ [KIND_org] ++ post).
  change (pre ++ v :: post) with (pre ++ [v] ++ post).
  rewrite !count_line_app.
  assert (E : count_line KIND_org [KIND_org] = 1).
  { unfold count_line. simpl.
    destruct (list_eq_dec N.eq_dec KIND_org KIND_org) as [_ | H];
      [reflexivity | contradiction]. }
  rewrite E. lia.
Qed.

Lemma company_marker_is_org (lines : list str) :
  has_x_abshowas_company lines = true -> is_org lines = true.
Proof. intros H. unfold is_org. rewrite H. reflexivity. Qed.

(** C6 (as amended): a card with a line [X-ABShowAs:COMPANY] is classified
    as an organization.  When its rewrite pass emitted a version line, the
    transformed block is the output of the pass with one [KIND:org] line
    put directly after the first version line (and the end marker made
    sure of): it holds one [KIND:org] line more than the pass emitted, so
    exactly one when no line of the card passed through as [KIND:org]. *)
Theorem company_marker_kind_after_version (s : settings) (lines : list str) :
  has_x_abshowas_company lines = true ->
  is_org lines = true /\
  (existsb (startswith VERSION_) (rewrite_pass s lines) = true ->
   exists pre v post,
     rewrite_pass s lines = pre ++ v :: post /\
     (forall l, In l pre -> startswith VERSION_ l = false) /\
     startswith VERSION_ v = true /\
     transform_lines s lines
       = Ok (ensure_end (pre ++ v :: KIND_org :: post)) /\
     count_line KIND_org (ensure_end (pre ++ v :: KIND_org :: post))
       = S (count_line KIND_org (rewrite_pass s lines))).
Proof.
  intros Hx. pose proof (company_marker_is_org lines Hx) as Horg.
  split; [exact Horg |].
  intros Hv.
  destruct (first_match_exists _ _ _ Hv) as [pre [v [post [E [Hpre Hver]]]]].
  exists pre, v, post.
  split; [exact E |]. split; [exact Hpre |]. split; [exact Hver |].
  split.
  - unfold transform_lines, add_kind. rewrite Horg, E.
    rewrite (find_index_first _ _ pre post v Hpre Hver), insert_after.
    reflexivity.
  - rewrite count_line_ensure_end, count_line_insert, E. reflexivity.
Qed.

Lemma company_marker_kind_after_version_witness :
  has_x_abshowas_company
    [lit "BEGIN:VCARD"; lit "VERSION:3.0"; lit "ORG:Acme";
     lit "X-ABShowAs:COMPANY"; lit "END:VCARD"] = true /\
  existsb (startswith VERSION_)
    (rewrite_pass (Settings true true)
       [lit "BEGIN:VCARD"; lit "VERSION:3.0"; lit "ORG:Acme";
        lit "X-ABShowAs:COMPANY"; lit "END:VCARD"]) = true /\
  exists pre v post,
    transform_lines (Settings true true)
      [lit "BEGIN:VCARD"; lit "VERSION:3.0"; lit "ORG:Acme";
       lit "X-ABShowAs:COMPANY"; lit "END:VCARD"]
    = Ok (ensure_end (pre ++ v :: KIND_org :: post)).
Proof.
  split; [reflexivity |]. split; [reflexivity |].
  destruct (proj2 (company_marker_kind_after_version (Settings true true)
                     [lit "BEGIN:VCARD"; lit "VERSION:3.0"; lit "ORG:Acme";
                      lit "X-ABShowAs:COMPANY"; lit "END:VCARD"] eq_refl)
              eq_refl)
    as [pre [v [post [_ [_ [_ [H _]]]]]]].
  exists pre, v, post. exact H.
Defined.

(** C6 (as stated) fails: a card that has a [KIND:org] line of its own
    keeps it, and the block has two such lines. *)
Lemma company_card_with_two_kind_lines :
  has_x_abshowas_company
    [lit "BEGIN:VCARD"; lit "VERSION:3.0"; lit "KIND:org"; lit "ORG:Acme";
     lit "X-ABShowAs:COMPANY"; lit "END:VCARD"] = true /\
  transform_lines (Settings false false)
    [lit "BEGIN:VCARD"; lit "VERSION:3.0"; lit "KIND:org"; lit "ORG:Acme";
     lit "X-ABShowAs:COMPANY"; lit "END:VCARD"]
  = Ok [lit "BEGIN:VCARD"; lit "VERSION:4.0"; lit "KIND:org"; lit "KIND:org";
        lit "ORG:Acme"; lit "END:VCARD"] /\
  count_line KIND_org
    [lit "BEGIN:VCARD"; lit "VERSION:4.0"; lit "KIND:org"; lit "KIND:org";
     lit "ORG:Acme"; lit "END:VCARD"] = 2.
Proof.
  vm_compute. repeat split.
Qed.

(* ================================================================== *)
(** ** The end marker *)
(* ================================================================== *)

Lemma last_line_snoc (lines : list str) (line : str) :
  last_line (lines ++ [line]) = line.
Proof. apply last_last. Qed.

Lemma ensure_end_last (lines : list str) :
  startswith END_VCARD (last_line (ensure_end lines)) = true.
Proof.
  unfold ensure_end.
  destruct (startswith END_VCARD (last_line lines)) eqn:E; simpl.
  - exact E.
  - rewrite last_line_snoc. reflexivity.
Qed.

(** A block that is produced ends with a line that starts with
    [END:VCARD]. *)
Lemma transform_lines_end (s : settings) (lines out : list str) :
  transform_lines s lines = Ok out ->
  startswith END_VCARD (last_line out) = true.
Proof.
  unfold transform_lines. intros H. apply bind_ok in H.
  destruct H as [nl' [_ H]]. injection H as <-. apply ensure_end_last.
Qed.

(** A card that is not classified as an organization is always
    transformed. *)
Lemma transform_lines_person (s : settings) (lines : list str) :
  is_org lines = false ->
  transform_lines s lines = Ok (ensure_end (rewrite_pass s lines)).
Proof. intros H. unfold transform_lines, add_kind. rewrite H. reflexivity. Qed.

(** C9: a card without an end marker is claimed to yield a block that ends
    with the end marker.  The splitter does append the marker, but the card
    below is classified as an organization and has no version line: the
    conversion raises [StopIteration] and yields no block at all. *)
Theorem open_card_without_version_raises :
  forall s : settings,
    startswith BEGIN_VCARD Sample.open_org_card = true /\
    split_vcards Sample.open_org_card
      = [text [lit "BEGIN:VCARD"; lit "ORG:Acme"; lit "END:VCARD"]] /\
    convert_vcard_3_to_4 Sample.open_org_card s = Raise StopIteration.
Proof.
  intros [[] []]; vm_compute; repeat split.
Qed.

(* ================================================================== *)
(** ** How many cards the splitter produces *)
(* ================================================================== *)

Lemma split_step_open (st : split_state) (line : str) :
  card_open st ->
  card_open (split_step st line) /\
  List.length (vcards (split_step st line))
  = List.length (vcards st) + begin_flag line.
Proof.
  intros [l0 [cur Hcur]]. unfold split_step, begin_flag, save_card.
  rewrite Hcur. destruct (startswith BEGIN_VCARD line); simpl.
  - split; [exists line, []; reflexivity |].
    rewrite length_app. reflexivity.
  - split; [exists l0, (cur ++ [line]); reflexivity |].
    symmetry. apply Nat.add_0_r.
Qed.

Lemma split_fold_open (lines : list str) (st : split_state) :
  card_open st ->
  card_open (fold_left split_step lines st) /\
  List.length (vcards (fold_left split_step lines st))
  = List.length (vcards st)
    + List.length (filter (startswith BEGIN_VCARD) lines).
Proof.
  revert st; induction lines as [| line lines IH]; intros st Hopen.
  - split; [exact Hopen | simpl; lia].
  - destruct (split_step_open st line Hopen) as [Hopen' Hlen].
    destruct (IH _ Hopen') as [Hopen'' Hlen'].
    split; [exact Hopen'' |].
    simpl fold_left. rewrite Hlen', Hlen. unfold begin_flag.
    cbn [filter]. destruct (startswith BEGIN_VCARD line);
      cbn [List.length]; lia.
Qed.

(** The first line of the input opens a card whether or not it is a begin
    marker. *)
Lemma split_first_line (line : str) :
  card_open (split_step split_init line) /\
  vcards (split_step split_init line) = [].
Proof.
  unfold split_step, split_init, save_card. cbn [current_vcard vcards].
  destruct (startswith BEGIN_VCARD line);
    (split; [exists line, []; reflexivity | reflexivity]).
Qed.

(** The splitter yields one card for every begin-marker line, and one more
    when the first line of the input is no begin marker. *)
Lemma split_vcards_count (input_text : str) :
  List.length (split_vcards input_text)
  = begin_marker_count input_text
    + (if startswith BEGIN_VCARD (hd [] (input_lines input_text))
       then 0 else 1).
Proof.
  unfold split_vcards, begin_marker_count. fold (input_lines input_text).
  destruct (input_lines input_text) as [| line lines] eqn:E.
  - exfalso. exact (split_not_nil _ _ E).
  - simpl fold_left. destruct (split_first_line line) as [Hopen Hnil].
    destruct (split_fold_open lines _ Hopen) as [[l0 [cur Hcur]] Hlen].
    unfold save_card. rewrite Hcur, length_app, Hlen, Hnil.
    cbn [filter hd List.length].
    destruct (startswith BEGIN_VCARD line); cbn [List.length]; lia.
Qed.

(* ================================================================== *)
(** ** The indexed accesses are in range *)
(* ================================================================== *)

Lemma line_step_begin (s : settings) (st : loop_state) (line : str) :
  (exists rest, new_lines st = BEGIN_VCARD :: rest) ->
  exists rest, new_lines (line_step s st line) = BEGIN_VCARD :: rest.
Proof.
  intros [rest H]. unfold line_step.
  destruct (falsy (strip line) || startswith BEGIN_VCARD line);
    [exists rest; exact H |].
  destruct (photo_rule s (skip_photo st) line); [exists rest; exact H |].
  destruct (field_rules s line) as [out |]; [| exists rest; exact H].
  exists (rest ++ [out]). simpl. rewrite H. reflexivity.
Qed.

(** [new_lines] is never empty, so [new_lines[-1]] at line 162 is
    defined. *)
Lemma rewrite_pass_begin (s : settings) (lines : list str) :
  exists rest, rewrite_pass s lines = BEGIN_VCARD :: rest.
Proof.
  unfold rewrite_pass.
  assert (H : exists rest, new_lines loop_init = BEGIN_VCARD :: rest)
    by (exists []; reflexivity).
  revert H. generalize loop_init.
  induction lines as [| line lines IH]; intros st H; [exact H |].
  simpl. apply IH, line_step_begin, H.
Qed.

(* ================================================================== *)
(** ** One block for every card the splitter produces *)
(* ================================================================== *)

Lemma join_last (sep : str) (parts : list str) (c : char) :
  In c (last parts []) -> In c (join sep parts).
Proof.
  induction parts as [| p rest IH]; intros H; [destruct H |].
  destruct rest as [| q rest]; [exact H |].
  change (join sep (p :: q :: rest)) with (p ++ sep ++ join sep (q :: rest)).
  apply in_or_app; right. apply in_or_app; right. apply IH. exact H.
Qed.

(** A closed card holds the letter E of its end marker, so it is not
    blank and line 70 never skips it. *)
Lemma close_card_not_blank (cur : list str) :
  falsy (strip (close_card cur)) = false.
Proof.
  destruct (falsy (strip (close_card cur))) eqn:E; [| reflexivity].
  rewrite strip_falsy_iff in E.
  assert (H : In 69%N (close_card cur)).
  { unfold close_card. apply join_last.
    destruct (startswith END_VCARD (last_line cur)) eqn:Hend; simpl.
    - apply startswith_iff in Hend. destruct Hend as [r Hr].
      unfold last_line in Hr. rewrite Hr. left; reflexivity.
    - fold (last_line (cur ++ [END_VCARD])). rewrite last_line_snoc.
      left; reflexivity. }
  specialize (E _ H). discriminate E.
Qed.

Lemma save_card_closed (st : split_state) :
  closed_cards (vcards st) -> closed_cards (save_card st).
Proof.
  intros H. unfold save_card.
  destruct (current_vcard st) as [[| l cur] |]; try exact H.
  intros v Hv. apply in_app_or in Hv. destruct Hv as [Hv | [<- | []]].
  - apply H, Hv.
  - exists (l :: cur); reflexivity.
Qed.

Lemma split_step_closed (st : split_state) (line : str) :
  closed_cards (vcards st) -> closed_cards (vcards (split_step st line)).
Proof.
  intros H. unfold split_step.
  destruct (startswith BEGIN_VCARD line).
  - apply save_card_closed, H.
  - destruct (current_vcard st); exact H.
Qed.

Lemma split_vcards_closed (input_text : str) :
  closed_cards (split_vcards input_text).
Proof.
  unfold split_vcards. apply save_card_closed.
  assert (H : closed_cards (vcards split_init)) by (intros v []).
  revert H. generalize split_init.
  induction (split nl (strip input_text)) as [| line lines IH]; intros st H;
    [exact H |].
  simpl. apply IH, split_step_closed, H.
Qed.

Lemma convert_loop_length (s : settings) (cards acc out : list str) :
  closed_cards cards ->
  convert_loop s cards acc = Ok out ->
  List.length out = List.length acc + List.length cards.
Proof.
  revert acc; induction cards as [| v cards IH]; intros acc Hc H.
  - injection H as <-. simpl. lia.
  - cbn [convert_loop] in H.
    destruct (Hc v (or_introl eq_refl)) as [cur ->].
    rewrite close_card_not_blank in H.
    apply bind_ok in H. destruct H as [block [_ H]].
    rewrite (IH _ (fun v Hv => Hc v (or_intror Hv)) H), length_app.
    simpl. lia.
Qed.

(** When the conversion returns, the number of its blocks is the number
    of begin-marker lines, plus one when the first line of the input is no
    begin marker. *)
Lemma converted_blocks_count (input_text : str) (s : settings)
  (blocks : list str) :
  converted_blocks input_text s = Ok blocks ->
  List.length blocks
  = begin_marker_count input_text
    + (if startswith BEGIN_VCARD (hd [] (input_lines input_text))
       then 0 else 1).
Proof.
  unfold converted_blocks. intros H.
  rewrite (convert_loop_length s _ [] blocks (split_vcards_closed input_text) H).
  apply split_vcards_count.
Qed.

(* ================================================================== *)
(** ** The splitter partitions the input lines *)
(* ================================================================== *)

Lemma card_group_snoc (g : list str) (line : str) :
  card_group g -> startswith BEGIN_VCARD line = false ->
  card_group (g ++ [line]).
Proof.
  intros [l [rest [-> Hrest]]] Hline. exists l, (rest ++ [line]).
  split; [reflexivity |].
  apply Forall_app; split; [exact Hrest | constructor; [exact Hline | constructor]].
Qed.

Lemma begins_card_snoc (g : list str) (line : str) :
  card_group g -> begins_card g -> begins_card (g ++ [line]).
Proof. intros [l [rest [-> _]]] H. exact H. Qed.

Lemma tl_snoc (A : Type) (l : list A) (x y : A) :
  tl ((l ++ [x]) ++ [y]) = tl (l ++ [x]) ++ [y].
Proof. destruct l; reflexivity. Qed.

(** One step of the splitting loop on a state with an open card. *)
Lemma split_step_groups (st : split_state) (done : list (list str))
  (cur : list str) (line : str) :
  vcards st = map close_card done ->
  current_vcard st = Some cur ->
  Forall card_group done -> card_group cur ->
  Forall begins_card (tl (done ++ [cur])) ->
  exists done' cur',
    vcards (split_step st line) = map close_card done' /\
    current_vcard (split_step st line) = Some cur' /\
    Forall card_group done' /\ card_group cur' /\
    Forall begins_card (tl (done' ++ [cur'])) /\
    concat (done' ++ [cur']) = concat (done ++ [cur]) ++ [line].
Proof.
  intros Hv Hc Hdone Hcur Hbeg.
  unfold split_step, save_card. rewrite Hc.
  destruct (startswith BEGIN_VCARD line) eqn:Hline.
  - exists (done ++ [cur]), [line].
    destruct Hcur as [l [rest [-> Hrest]]].
    cbn [vcards current_vcard]. rewrite Hv, map_app.
    split; [reflexivity |]. split; [reflexivity |].
    split; [apply Forall_app; split;
            [exact Hdone | constructor; [exists l, rest; auto | constructor]] |].
    split; [exists line, []; split; [reflexivity | constructor] |].
    split.
    + rewrite tl_snoc. apply Forall_app; split; [exact Hbeg |].
      constructor; [exact Hline | constructor].
    + rewrite (concat_app (done ++ [l :: rest]) [[line]]). reflexivity.
  - exists done, (cur ++ [line]).
    cbn [vcards current_vcard].
    split; [exact Hv |]. split; [reflexivity |].
    split; [exact Hdone |].
    split; [apply card_group_snoc; assumption |].
    split.
    + destruct done as [| d ds]; [constructor |].
      cbn [app tl] in *. apply Forall_app in Hbeg. destruct Hbeg as [H1 H2].
      apply Forall_app; split; [exact H1 |].
      inversion H2; subst. constructor; [| constructor].
      apply begins_card_snoc; assumption.
    + rewrite !concat_app. cbn [concat]. rewrite !app_nil_r, app_assoc.
      reflexivity.
Qed.

Lemma split_fold_groups (lines : list str) (st : split_state)
  (done : list (list str)) (cur : list str) :
  vcards st = map close_card done ->
  current_vcard st = Some cur ->
  Forall card_group done -> card_group cur ->
  Forall begins_card (tl (done ++ [cur])) ->
  exists done' cur',
    vcards (fold_left split_step lines st) = map close_card done' /\
    current_vcard (fold_left split_step lines st) = Some cur' /\
    Forall card_group done' /\ card_group cur' /\
    Forall begins_card (tl (done' ++ [cur'])) /\
    concat (done' ++ [cur']) = concat (done ++ [cur]) ++ lines.
Proof.
  revert st done cur. induction lines as [| line lines IH];
    intros st done cur Hv Hc Hdone Hcur Hbeg.
  - exists done, cur. rewrite app_nil_r. repeat split; assumption.
  - destruct (split_step_groups st done cur line Hv Hc Hdone Hcur Hbeg)
      as [d1 [c1 [Hv1 [Hc1 [Hd1 [Hcur1 [Hb1 E1]]]]]]].
    destruct (IH _ d1 c1 Hv1 Hc1 Hd1 Hcur1 Hb1)
      as [d2 [c2 [Hv2 [Hc2 [Hd2 [Hcur2 [Hb2 E2]]]]]]].
    exists d2, c2. cbn [fold_left].
    repeat split; try assumption.
    rewrite E2, E1, <- app_assoc. reflexivity.
Qed.

Lemma split_vcards_groups (input_text : str) :
  exists groups,
    split_vcards input_text = map close_card groups /\
    concat groups = input_lines input_text /\
    Forall card_group groups /\
    Forall begins_card (tl groups).
Proof.
  unfold split_vcards. fold (input_lines input_text).
  destruct (input_lines input_text) as [| line lines] eqn:E.
  - exfalso. exact (split_not_nil _ _ E).
  - cbn [fold_left].
    assert (H1 : vcards (split_step split_init line) = map close_card []
                 /\ current_vcard (split_step split_init line) = Some [line]).
    { unfold split_step, split_init, save_card. cbn [current_vcard vcards].
      destruct (startswith BEGIN_VCARD line); split; reflexivity. }
    destruct H1 as [Hv Hc].
    destruct (split_fold_groups lines _ [] [line] Hv Hc (Forall_nil _))
      as [done [cur [Hv' [Hc' [Hd [Hcur [Hb Econ]]]]]]].
    + exists line, []; split; [reflexivity | constructor].
    + constructor.
    + exists (done ++ [cur]).
      split.
      * unfold save_card. rewrite Hc', Hv', map_app.
        destruct Hcur as [l [rest [-> _]]]. reflexivity.
      * split; [rewrite Econ; reflexivity |].
        split; [| exact Hb].
        apply Forall_app; split; [exact Hd | constructor; [exact Hcur | constructor]].
Qed.

(** X1: the splitter cuts the lines of the input into consecutive groups,
    one per card, without losing, adding or reordering a line.  A new
    group starts at every begin-marker line and nowhere else, so every group
    but the first starts with a begin marker; the card of a group is the
    group closed with an end marker. *)
Theorem split_vcards_partition (input_text : str) :
  exists groups,
    split_vcards input_text = map close_card groups /\
    concat groups = input_lines input_text /\
    Forall card_group groups /\
    Forall begins_card (tl groups).
Proof. apply split_vcards_groups. Qed.

Lemma input_line_no_newline (input_text line : str) :
  In line (input_lines input_text) -> ~ In nl line.
Proof. intros H. exact (proj1 (split_pieces _ _ _ H)). Qed.

Lemma closed_lines_last (g : list str) :
  startswith END_VCARD (last_line (closed_lines g)) = true.
Proof.
  unfold closed_lines.
  destruct (startswith END_VCARD (last_line g)) eqn:E; cbn [negb].
  - exact E.
  - apply (f_equal (startswith END_VCARD) (last_line_snoc g END_VCARD)).
Qed.

Lemma closed_lines_split (g : list str) :
  Forall (fun l => ~ In nl l) g ->
  split nl (close_card g) = closed_lines g.
Proof.
  intros Hg. unfold close_card. fold (closed_lines g).
  apply split_join.
  - unfold closed_lines.
    destruct (startswith END_VCARD (last_line g)) eqn:E; cbn [negb].
    + intros ->. vm_compute in E. discriminate E.
    + intros E'. apply app_eq_nil in E'. destruct E' as [_ E']. discriminate E'.
  - unfold closed_lines. destruct (negb _); [| exact Hg].
    apply Forall_app; split; [exact Hg |].
    constructor; [| constructor].
    intros H. vm_compute in H. intuition discriminate.
Qed.

(** X2: every card the splitter produces is a run of input lines joined by
    newlines, with [END:VCARD] appended when the last of them does not
    start with it.  Splitting the card on newlines gives these lines back,
    and the last one starts with [END:VCARD]. *)
Theorem raw_card_lines (input_text vcard : str) :
  In vcard (split_vcards input_text) ->
  exists g,
    (forall l, In l g -> In l (input_lines input_text)) /\
    vcard = join [nl] (closed_lines g) /\
    split nl vcard = closed_lines g /\
    startswith END_VCARD (last_line (split nl vcard)) = true.
Proof.
  intros Hin.
  destruct (split_vcards_groups input_text) as [groups [E [Econ _]]].
  rewrite E in Hin. apply in_map_iff in Hin. destruct Hin as [g [<- Hg]].
  assert (Hsub : forall l, In l g -> In l (input_lines input_text)).
  { intros l Hl. rewrite <- Econ. apply in_concat. exists g; split; assumption. }
  assert (Hsplit : split nl (close_card g) = closed_lines g).
  { apply closed_lines_split. apply Forall_forall. intros l Hl.
    exact (input_line_no_newline input_text l (Hsub l Hl)). }
  exists g. split; [exact Hsub |]. split; [reflexivity |].
  split; [exact Hsplit |].
  rewrite Hsplit. apply closed_lines_last.
Qed.

Lemma raw_card_lines_witness :
  In (text [lit "BEGIN:VCARD"; lit "FN:Jane Doe"; lit "END:VCARD"])
     (split_vcards (text [lit "BEGIN:VCARD"; lit "FN:Jane Doe";
                          lit "BEGIN:VCARD"; lit "FN:John Doe"])) /\
  startswith END_VCARD
    (last_line
       (split nl (text [lit "BEGIN:VCARD"; lit "FN:Jane Doe"; lit "END:VCARD"])))
  = true.
Proof.
  assert (H : In (text [lit "BEGIN:VCARD"; lit "FN:Jane Doe"; lit "END:VCARD"])
                (split_vcards (text [lit "BEGIN:VCARD"; lit "FN:Jane Doe";
                                     lit "BEGIN:VCARD"; lit "FN:John Doe"]))).
  { vm_compute. left; reflexivity. }
  split; [exact H |].
  destruct (raw_card_lines _ _ H) as [g [_ [_ [_ Hlast]]]]. exact Hlast.
Defined.

(* ================================================================== *)
(** ** The loop over the cards *)
(* ================================================================== *)

Lemma convert_loop_ok (s : settings) (cards acc out : list str) :
  closed_cards cards ->
  (convert_loop s cards acc = Ok out <->
   exists blocks,
     Forall2 (fun v b => transform_vcard s v = Ok b) cards blocks /\
     out = acc ++ blocks).
Proof.
  revert acc; induction cards as [| v cards IH]; intros acc Hc.
  - cbn [convert_loop]. split.
    + intros H. injection H as <-. exists []. split; [constructor |].
      symmetry; apply app_nil_r.
    + intros [blocks [H ->]]. inversion H. rewrite app_nil_r. reflexivity.
  - cbn [convert_loop].
    destruct (Hc v (or_introl eq_refl)) as [cur ->].
    rewrite close_card_not_blank.
    assert (Hc' : closed_cards cards) by (intros v Hv; apply Hc; right; exact Hv).
    split.
    + intros H. apply bind_ok in H. destruct H as [b [Hb H]].
      apply (IH _ Hc') in H. destruct H as [blocks [Hall ->]].
      exists (b :: blocks). split; [constructor; assumption |].
      rewrite <- app_assoc. reflexivity.
    + intros [blocks [H ->]]. inversion H as [| ? b ? bs Hb Hall]; subst.
      rewrite Hb. cbn [bind]. apply (IH _ Hc'). exists bs.
      split; [exact Hall | rewrite <- app_assoc; reflexivity].
Qed.

Lemma convert_loop_raises (s : settings) (cards acc : list str) :
  closed_cards cards ->
  (convert_loop s cards acc = Raise StopIteration <->
   exists v, In v cards /\ transform_vcard s v = Raise StopIteration).
Proof.
  revert acc; induction cards as [| v cards IH]; intros acc Hc.
  - cbn [convert_loop]. split; [intros H; discriminate H | intros [v [[] _]]].
  - cbn [convert_loop].
    destruct (Hc v (or_introl eq_refl)) as [cur Ev].
    rewrite Ev at 1. rewrite close_card_not_blank.
    assert (Hc' : closed_cards cards) by (intros w Hw; apply Hc; right; exact Hw).
    destruct (transform_vcard s v) as [b | []] eqn:E; cbn [bind].
    + rewrite (IH _ Hc'). split.
      * intros [w [Hw H]]. exists w; split; [right; exact Hw | exact H].
      * intros [w [[<- | Hw] H]]; [rewrite E in H; discriminate H |].
        exists w; split; assumption.
    + split; [intros _; exists v; split; [left; reflexivity | exact E]
             | reflexivity].
Qed.

Lemma find_index_none (A : Type) (p : A -> bool) (xs : list A) :
  find_index p xs = None <-> forall x, In x xs -> p x = false.
Proof.
  induction xs as [| x xs IH]; cbn [find_index].
  - split; [intros _ y [] | reflexivity].
  - destruct (p x) eqn:E.
    + split; [intros H; discriminate H |].
      intros H. rewrite (H x (or_introl eq_refl)) in E. discriminate E.
    + destruct (find_index p xs) as [i |]; cbn [option_map].
      * split; [intros H; discriminate H |].
        intros H. apply proj2 in IH.
        assert (H' : @None nat = None) by reflexivity.
        exfalso. specialize (IH (fun y Hy => H y (or_intror Hy))).
        discriminate IH.
      * split; [| reflexivity].
        intros _ y [<- | Hy]; [exact E | exact (proj1 IH eq_refl y Hy)].
Qed.

Lemma transform_vcard_raises (s : settings) (vcard : str) :
  transform_vcard s vcard = Raise StopIteration <-> lacks_version s vcard.
Proof.
  unfold transform_vcard, lacks_version.
  rewrite <- find_index_none, <- transform_lines_raises.
  destruct (transform_lines s (card_lines vcard)) as [ls | []]; cbn [bind].
  - split; intros H; discriminate H.
  - split; reflexivity.
Qed.

(** X3: the conversion raises [StopIteration] exactly when one of the cards
    of the input is classified as an organization while its rewrite pass
    left no line that starts with [VERSION:]; on every other input it
    returns a text. *)
Theorem conversion_raises_iff (input_text : str) (s : settings) :
  (convert_vcard_3_to_4 input_text s = Raise StopIteration <->
   exists vcard, In vcard (split_vcards input_text) /\ lacks_version s vcard) /\
  ((exists out, convert_vcard_3_to_4 input_text s = Ok out) <->
   forall vcard, In vcard (split_vcards input_text) -> ~ lacks_version s vcard).
Proof.
  assert (H : convert_vcard_3_to_4 input_text s = Raise StopIteration <->
              exists vcard, In vcard (split_vcards input_text)
                            /\ lacks_version s vcard).
  { unfold convert_vcard_3_to_4, converted_blocks.
    pose proof (convert_loop_raises s (split_vcards input_text) []
                  (split_vcards_closed input_text)) as Hr.
    destruct (convert_loop s (split_vcards input_text) []) as [bs | []];
      cbn [bind].
    - split; [intros H; discriminate H |].
      intros [v [Hv Hl]].
      assert (C : Ok bs = Raise StopIteration).
      { apply (proj2 Hr). exists v.
        split; [exact Hv | apply transform_vcard_raises, Hl]. }
      discriminate C.
    - split; [| reflexivity]. intros _.
      destruct (proj1 Hr eq_refl) as [v [Hv Hl]]. exists v.
      split; [exact Hv | apply transform_vcard_raises, Hl]. }
  split; [exact H |].
  destruct (convert_vcard_3_to_4 input_text s) as [out | []] eqn:E.
  - split; [| intros _; exists out; reflexivity].
    intros _ v Hv Hl.
    assert (Hex : exists vcard, In vcard (split_vcards input_text)
                                /\ lacks_version s vcard)
      by (exists v; split; assumption).
    apply (proj2 H) in Hex. discriminate Hex.
  - split.
    + intros [out Hout]. discriminate Hout.
    + intros Hall. destruct (proj1 H eq_refl) as [v [Hv Hl]].
      exfalso. exact (Hall v Hv Hl).
Qed.

(** X4: the blocks of a conversion that returns are the transformed cards
    of the splitter, one block for every card and in the same order; no
    card is skipped. *)
Theorem blocks_one_per_card (input_text : str) (s : settings)
  (blocks : list str) :
  converted_blocks input_text s = Ok blocks <->
  Forall2 (fun vcard block => transform_vcard s vcard = Ok block)
    (split_vcards input_text) blocks.
Proof.
  unfold converted_blocks.
  rewrite (convert_loop_ok s (split_vcards input_text) [] blocks
             (split_vcards_closed input_text)).
  split.
  - intros [bs [H ->]]. exact H.
  - intros H. exists blocks. split; [exact H | reflexivity].
Qed.

(** X5: an input that is empty or made of whitespace only is no error and
    does not give an empty output: it is converted to one card that holds
    nothing but the begin and the end marker. *)
Theorem blank_input_gives_empty_card (input_text : str) (s : settings) :
  (forall c, In c input_text -> isspace c = true) ->
  convert_vcard_3_to_4 input_text s
  = Ok (text [lit "BEGIN:VCARD"; lit "END:VCARD"]).
Proof.
  intros H. apply strip_falsy_iff in H.
  unfold convert_vcard_3_to_4, converted_blocks, split_vcards.
  destruct (strip input_text) as [| c r]; [| discriminate H].
  destruct s as [[] []]; vm_compute; reflexivity.
Qed.

Lemma blank_input_gives_empty_card_witness :
  convert_vcard_3_to_4 [32%N; 10%N; 9%N; 13%N; 10%N] (Settings true true)
  = Ok (text [lit "BEGIN:VCARD"; lit "END:VCARD"]).
Proof.
  apply blank_input_gives_empty_card.
  intros c Hc. vm_compute in Hc.
  repeat (destruct Hc as [<- | Hc]; [reflexivity |]). destruct Hc.
Defined.

(* ================================================================== *)
(** ** What the lines of a block look like *)
(* ================================================================== *)

(** A prefix made of characters that start neither a match nor a
    replacement is there after the substitution exactly when it was there
    before. *)
Lemma re_sub_prefix_iff (m : str -> option (str * nat))
  (hin hout : char -> Prop) (p s : str) :
  heads m hin hout ->
  (forall x, In x p -> ~ hin x /\ ~ hout x) ->
  startswith p (re_sub m 0 s) = startswith p s.
Proof.
  intros Hm. revert s. induction p as [| a p IH]; intros s Hp; [reflexivity |].
  destruct s as [| c r]; [reflexivity |].
  destruct (Hp a (or_introl eq_refl)) as [Ha Ha'].
  destruct (m (c :: r)) as [[out n] |] eqn:E.
  - rewrite (re_sub_match _ _ _ _ _ E).
    destruct (Hm _ _ _ E) as [[c' [r' [Es Hc]]] [h [t [-> Hh]]]].
    injection Es as <- <-.
    cbn [startswith app].
    replace (a =? h)%N with false
      by (symmetry; apply N.eqb_neq; intros ->; contradiction).
    replace (a =? c)%N with false
      by (symmetry; apply N.eqb_neq; intros ->; contradiction).
    reflexivity.
  - rewrite (re_sub_no_match _ _ _ E). cbn [startswith].
    rewrite IH; [reflexivity |].
    intros x Hx. apply Hp. right; exact Hx.
Qed.

Lemma sub_type_prefix (p s : str) :
  (forall x, In x p -> ~ substitution_head x) ->
  startswith p (sub_type s) = startswith p s.
Proof.
  intros Hp. unfold sub_type.
  apply (re_sub_prefix_iff match_type _ _ p s match_type_heads).
  intros x Hx. specialize (Hp x Hx). unfold substitution_head in Hp.
  split.
  - intros [-> | ->]; apply Hp; cbn [In]; tauto.
  - intros ->; apply Hp; cbn [In]; tauto.
Qed.

Lemma sub_item_prefix (tok p s : str) :
  tok = ADR \/ tok = URL ->
  (forall x, In x p -> ~ substitution_head x) ->
  startswith p (sub_item tok s) = startswith p s.
Proof.
  intros Htok Hp. unfold sub_item.
  assert (Hh : exists h t, tok = h :: t /\ (h = 65%N \/ h = 85%N)).
  { destruct Htok as [-> | ->]; eexists; eexists;
      (split; [reflexivity |]); [left | right]; reflexivity. }
  destruct Hh as [h [t [Hh Hcase]]].
  apply (re_sub_prefix_iff (match_item tok) _ _ p s
           (match_item_heads tok h t Hh)).
  intros x Hx. specialize (Hp x Hx). unfold substitution_head in Hp.
  split.
  - intros ->; apply Hp; cbn [In]; tauto.
  - intros ->; apply Hp; destruct Hcase as [-> | ->]; cbn [In]; tauto.
Qed.

(** The rewriting rules neither create nor remove a prefix that does not
    start with N and holds none of the characters i, t, T, A, U. *)
Lemma rewrite_line_prefix (a : char) (p line : str) :
  a <> 78%N ->
  (forall x, In x (a :: p) -> ~ substitution_head x) ->
  startswith (a :: p) (rewrite_line line) = startswith (a :: p) line.
Proof.
  intros Ha Hp.
  assert (H1 : startswith (a :: p) (address_rule line)
               = startswith (a :: p) line).
  { unfold address_rule. destruct (contains ADR line); [| reflexivity].
    rewrite sub_type_prefix by exact Hp.
    apply sub_item_prefix; [left; reflexivity | exact Hp]. }
  assert (H2 : startswith (a :: p) (telephone_rule (address_rule line))
               = startswith (a :: p) line).
  { unfold telephone_rule. destruct (startswith (lit "TEL;") _); [| exact H1].
    rewrite sub_type_prefix by exact Hp. exact H1. }
  assert (H3 : startswith (a :: p)
                 (email_rule (telephone_rule (address_rule line)))
               = startswith (a :: p) line).
  { unfold email_rule. destruct (startswith (lit "EMAIL;") _); [| exact H2].
    rewrite sub_type_prefix by exact Hp. exact H2. }
  assert (H4 : startswith (a :: p) (before_name_rule line)
               = startswith (a :: p) line).
  { unfold before_name_rule, url_rule.
    destruct (startswith (lit "item") _); [| exact H3].
    rewrite sub_item_prefix; [exact H3 | right; reflexivity | exact Hp]. }
  change (rewrite_line line) with (name_rule (before_name_rule line)).
  unfold name_rule.
  destruct (startswith N_ (before_name_rule line)) eqn:E; [| exact H4].
  rewrite <- H4. apply startswith_iff in E. destruct E as [r ->].
  assert (Hn : (a =? 78)%N = false) by (apply N.eqb_neq; exact Ha).
  change (normalize_n (N_ ++ r))
    with (78%N :: 58%N :: join [semicolon] (padded_components (N_ ++ r))).
  change (N_ ++ r) with (78%N :: 58%N :: r).
  cbn [startswith]. rewrite Hn. reflexivity.
Qed.

(** What the rules emit for a line: the version line, or the rewritten
    line, free of vendor markers. *)
Lemma field_rules_some (s : settings) (line out : str) :
  field_rules s line = Some out ->
  (startswith VERSION_ line = true /\ out = VERSION_4) \/
  (reaches_rewriting s line = true /\ out = rewrite_line line /\
   apple_specific out = false).
Proof.
  unfold field_rules, reaches_rewriting.
  destruct (remove_fn s && startswith (lit "FN:") line);
    [intros H; discriminate H |].
  destruct (startswith (lit "PRODID:-//Apple Inc.//") line);
    [intros H; discriminate H |].
  destruct (startswith VERSION_ line).
  - intros H. injection H as <-. left. split; reflexivity.
  - destruct (startswith X_ABShowAs_COMPANY line); [intros H; discriminate H |].
    destruct (apple_specific (rewrite_line line)) eqn:E;
      [intros H; discriminate H |].
    intros H. injection H as <-. right. repeat split. exact E.
Qed.

Section BlockLines.

Variable Q : str -> Prop.
Variable s : settings.
Hypothesis Q_begin : Q BEGIN_VCARD.
Hypothesis Q_kind : Q KIND_org.
Hypothesis Q_end : Q END_VCARD.
Hypothesis Q_rules : forall line out, field_rules s line = Some out -> Q out.

Lemma line_step_forall (st : loop_state) (line : str) :
  Forall Q (new_lines st) -> Forall Q (new_lines (line_step s st line)).
Proof.
  intros H. unfold line_step.
  destruct (falsy (strip line) || startswith BEGIN_VCARD line); [exact H |].
  destruct (photo_rule s (skip_photo st) line); [exact H |].
  destruct (field_rules s line) as [out |] eqn:E; [| exact H].
  cbn [new_lines]. apply Forall_app; split; [exact H |].
  constructor; [exact (Q_rules line out E) | constructor].
Qed.

Lemma rewrite_pass_forall (lines : list str) : Forall Q (rewrite_pass s lines).
Proof.
  unfold rewrite_pass.
  assert (H : Forall Q (new_lines loop_init))
    by (constructor; [exact Q_begin | constructor]).
  revert H. generalize loop_init.
  induction lines as [| line lines IH]; intros st H; [exact H |].
  cbn [fold_left]. apply IH, line_step_forall, H.
Qed.

Lemma insert_forall (i : nat) (ls : list str) :
  Forall Q ls -> Forall Q (insert i KIND_org ls).
Proof.
  intros H. unfold insert. rewrite <- (firstn_skipn i ls) in H.
  apply Forall_app in H. destruct H as [H1 H2].
  apply Forall_app; split; [exact H1 | constructor; assumption].
Qed.

Lemma ensure_end_forall (ls : list str) :
  Forall Q ls -> Forall Q (ensure_end ls).
Proof.
  intros H. unfold ensure_end. destruct (negb _); [| exact H].
  apply Forall_app; split; [exact H | constructor; [exact Q_end | constructor]].
Qed.

(** A property of the three fixed lines and of every line the rules emit
    holds of every line of a block. *)
Lemma transform_lines_forall (lines out : list str) :
  transform_lines s lines = Ok out -> Forall Q out.
Proof.
  unfold transform_lines. intros H. apply bind_ok in H.
  destruct H as [ls [Hk H]]. injection H as <-.
  apply ensure_end_forall.
  unfold add_kind in Hk. destruct (is_org lines).
  - destruct (find_index (startswith VERSION_) (rewrite_pass s lines));
      [| discriminate Hk].
    injection Hk as <-. apply insert_forall, rewrite_pass_forall.
  - injection Hk as <-. apply rewrite_pass_forall.
Qed.

End BlockLines.

(** X6: in every block the conversion produces, a line that starts with
    [VERSION:] reads exactly [VERSION:4.0], whatever version the source
    card stated; the rewriting rules never produce such a line. *)
Theorem version_lines_read_4_0 (s : settings) (lines out : list str) :
  transform_lines s lines = Ok out ->
  forall l, In l out -> startswith VERSION_ l = true -> l = VERSION_4.
Proof.
  intros H.
  apply (proj1 (Forall_forall
                  (fun l => startswith VERSION_ l = true -> l = VERSION_4) out)).
  apply (transform_lines_forall
           (fun l => startswith VERSION_ l = true -> l = VERSION_4) s)
    with (lines := lines); try exact H;
    try (intros C; vm_compute in C; discriminate C).
  intros line o Ho Hv.
  destruct (field_rules_some s line o Ho) as [[_ ->] | [Hr [-> _]]];
    [reflexivity |].
  change VERSION_ with (86%N :: lit "ERSION:") in Hv.
  rewrite rewrite_line_prefix in Hv.
  - unfold reaches_rewriting in Hr.
    apply andb_true_iff in Hr. destruct Hr as [Hr _].
    apply andb_true_iff in Hr. destruct Hr as [_ Hr].
    apply negb_true_iff in Hr.
    change (86%N :: lit "ERSION:") with VERSION_ in Hv.
    rewrite Hv in Hr. discriminate Hr.
  - discriminate.
  - intros x Hx Hs. vm_compute in Hx, Hs. intuition (subst; discriminate).
Qed.

Lemma version_lines_read_4_0_witness :
  transform_lines (Settings false false)
    [lit "BEGIN:VCARD"; lit "VERSION:2.1"; lit "FN:Jane"; lit "END:VCARD"]
  = Ok [lit "BEGIN:VCARD"; lit "VERSION:4.0"; lit "FN:Jane"; lit "END:VCARD"] /\
  lit "VERSION:4.0" = VERSION_4.
Proof.
  assert (H : transform_lines (Settings false false)
                [lit "BEGIN:VCARD"; lit "VERSION:2.1"; lit "FN:Jane";
                 lit "END:VCARD"]
              = Ok [lit "BEGIN:VCARD"; lit "VERSION:4.0"; lit "FN:Jane";
                    lit "END:VCARD"]) by reflexivity.
  split; [exact H |].
  apply (version_lines_read_4_0 _ _ _ H (lit "VERSION:4.0")).
  - right; left; reflexivity.
  - reflexivity.
Defined.

(** X7: when [remove_fn] is set, no line of a block starts with [FN:]:
    the formatted-name lines are dropped and the rewriting rules do not
    turn another line into one. *)
Theorem formatted_name_removed (s : settings) (lines out : list str) :
  remove_fn s = true ->
  transform_lines s lines = Ok out ->
  forall l, In l out -> startswith (lit "FN:") l = false.
Proof.
  intros Hfn H.
  apply (proj1 (Forall_forall (fun l => startswith (lit "FN:") l = false) out)).
  apply (transform_lines_forall (fun l => startswith (lit "FN:") l = false) s)
    with (lines := lines); try exact H; try reflexivity.
  intros line o Ho.
  destruct (field_rules_some s line o Ho) as [[_ ->] | [Hr [-> _]]];
    [reflexivity |].
  change (lit "FN:") with (70%N :: lit "N:").
  rewrite rewrite_line_prefix.
  - unfold reaches_rewriting in Hr. rewrite Hfn in Hr.
    apply andb_true_iff in Hr. destruct Hr as [Hr _].
    apply andb_true_iff in Hr. destruct Hr as [Hr _].
    apply andb_true_iff in Hr. destruct Hr as [Hr _].
    apply negb_true_iff in Hr. exact Hr.
  - discriminate.
  - intros x Hx Hs. vm_compute in Hx, Hs. intuition (subst; discriminate).
Qed.

Lemma formatted_name_removed_witness :
  remove_fn (Settings true false) = true /\
  transform_lines (Settings true false)
    [lit "BEGIN:VCARD"; lit "VERSION:3.0"; lit "FN:Jane Doe";
     lit "N:Doe;Jane"; lit "END:VCARD"]
  = Ok [lit "BEGIN:VCARD"; lit "VERSION:4.0"; lit "N:Doe;Jane;;;";
        lit "END:VCARD"] /\
  startswith (lit "FN:") (lit "N:Doe;Jane;;;") = false.
Proof.
  split; [reflexivity |]. split; [reflexivity |].
  apply (formatted_name_removed (Settings true false)
           [lit "BEGIN:VCARD"; lit "VERSION:3.0"; lit "FN:Jane Doe";
            lit "N:Doe;Jane"; lit "END:VCARD"]
           [lit "BEGIN:VCARD"; lit "VERSION:4.0"; lit "N:Doe;Jane;;;";
            lit "END:VCARD"] eq_refl eq_refl).
  right; right; left; reflexivity.
Defined.

(** X8: no line of a block holds one of the vendor markers [X-APPLE-],
    [X-ABADR:] and [X-ABLabel:]. *)
Theorem no_vendor_marker_in_block (s : settings) (lines out : list str) :
  transform_lines s lines = Ok out ->
  forall l, In l out -> apple_specific l = false.
Proof.
  intros H.
  apply (proj1 (Forall_forall (fun l => apple_specific l = false) out)).
  apply (transform_lines_forall (fun l => apple_specific l = false) s)
    with (lines := lines); try exact H; try reflexivity.
  intros line o Ho.
  destruct (field_rules_some s line o Ho) as [[_ ->] | [_ [_ E]]];
    [reflexivity | exact E].
Qed.

Lemma no_vendor_marker_in_block_witness :
  transform_lines (Settings false false)
    [lit "BEGIN:VCARD"; lit "VERSION:3.0";
     lit "item1.ADR;type=HOME:;;1 Main St;;;;"; lit "item1.X-ABADR:us";
     lit "X-APPLE-SUBLOCALITY:x"; lit "END:VCARD"]
  = Ok [lit "BEGIN:VCARD"; lit "VERSION:4.0";
        lit "ADR;TYPE=HOME:;;1 Main St;;;;"; lit "END:VCARD"] /\
  apple_specific (lit "ADR;TYPE=HOME:;;1 Main St;;;;") = false.
Proof.
  split; [reflexivity |].
  apply (no_vendor_marker_in_block (Settings false false)
           [lit "BEGIN:VCARD"; lit "VERSION:3.0";
            lit "item1.ADR;type=HOME:;;1 Main St;;;;"; lit "item1.X-ABADR:us";
            lit "X-APPLE-SUBLOCALITY:x"; lit "END:VCARD"]
           [lit "BEGIN:VCARD"; lit "VERSION:4.0";
            lit "ADR;TYPE=HOME:;;1 Main St;;;;"; lit "END:VCARD"] eq_refl).
  right; right; left; reflexivity.
Defined.

(* ================================================================== *)
(** ** The shape of a block *)
(* ================================================================== *)

Lemma insert_keeps_head (x b : str) (i : nat) (rest : list str) :
  insert (i + 1) x (b :: rest) = b :: insert i x rest.
Proof. unfold insert. rewrite Nat.add_1_r. reflexivity. Qed.

Lemma ensure_end_keeps_head (b : str) (rest : list str) :
  exists rest', ensure_end (b :: rest) = b :: rest'.
Proof.
  unfold ensure_end. destruct (negb _).
  - exists (rest ++ [END_VCARD]). reflexivity.
  - exists rest. reflexivity.
Qed.

Lemma transform_lines_shape (s : settings) (lines out : list str) :
  transform_lines s lines = Ok out ->
  exists l rest,
    out = BEGIN_VCARD :: l :: rest /\
    startswith END_VCARD (last_line (l :: rest)) = true.
Proof.
  intros H. pose proof (transform_lines_end s lines out H) as Hend.
  unfold transform_lines in H. apply bind_ok in H.
  destruct H as [ls [Hk H]]. injection H as <-.
  assert (Hls : exists rest, ls = BEGIN_VCARD :: rest).
  { destruct (rewrite_pass_begin s lines) as [rest Hp].
    unfold add_kind in Hk. rewrite Hp in Hk. destruct (is_org lines).
    - destruct (find_index _ _) as [i |]; [| discriminate Hk].
      injection Hk as <-. rewrite insert_keeps_head. eexists; reflexivity.
    - injection Hk as <-. exists rest; reflexivity. }
  destruct Hls as [rest ->].
  destruct (ensure_end_keeps_head BEGIN_VCARD rest) as [rest' E].
  rewrite E in *. destruct rest' as [| l rest'].
  - vm_compute in Hend. discriminate Hend.
  - exists l, rest'. split; [reflexivity | exact Hend].
Qed.

Lemma join_starts_with_first (sep first : str) (rest : list str) :
  startswith first (join sep (first :: rest)) = true.
Proof.
  destruct rest as [| q rest].
  - apply startswith_iff. exists []. symmetry. apply app_nil_r.
  - apply startswith_app.
Qed.

(** X9: every block the transformer returns has at least two lines; its
    first line is exactly [BEGIN:VCARD] and its last line starts with
    [END:VCARD]. *)
Theorem block_begins_and_ends (s : settings) (vcard block : str) :
  transform_vcard s vcard = Ok block ->
  exists l rest,
    block = join [nl] (BEGIN_VCARD :: l :: rest) /\
    startswith END_VCARD (last_line (l :: rest)) = true /\
    startswith BEGIN_VCARD block = true.
Proof.
  unfold transform_vcard. intros H. apply bind_ok in H.
  destruct H as [out [Hout H]]. injection H as <-.
  destruct (transform_lines_shape s _ out Hout) as [l [rest [-> Hend]]].
  exists l, rest. split; [reflexivity |]. split; [exact Hend |].
  apply join_starts_with_first.
Qed.

Lemma block_begins_and_ends_witness :
  exists l rest,
    text [lit "BEGIN:VCARD"; lit "FN:Jane"; lit "END:VCARD"]
    = join [nl] (BEGIN_VCARD :: l :: rest) /\
    startswith END_VCARD (last_line (l :: rest)) = true /\
    startswith BEGIN_VCARD
      (text [lit "BEGIN:VCARD"; lit "FN:Jane"; lit "END:VCARD"]) = true.
Proof.
  apply (block_begins_and_ends (Settings false false)
           (text [lit "BEGIN:VCARD"; lit "FN:Jane"; lit "END:VCARD"])).
  reflexivity.
Defined.

Lemma split_vcards_not_nil (input_text : str) : split_vcards input_text <> [].
Proof.
  destruct (split_vcards_groups input_text) as [groups [E [Econ _]]].
  rewrite E. destruct groups as [| g groups]; [| discriminate].
  cbn [concat] in Econ. exfalso.
  exact (split_not_nil nl (strip input_text) (eq_sym Econ)).
Qed.

Lemma startswith_trans (p b x : str) :
  startswith p b = true -> startswith b x = true -> startswith p x = true.
Proof.
  intros H1 H2. apply startswith_iff in H1. apply startswith_iff in H2.
  destruct H1 as [r1 ->]. destruct H2 as [r2 ->].
  apply startswith_iff. exists (r1 ++ r2). symmetry. apply app_assoc.
Qed.

Lemma transform_vcard_starts (s : settings) (vcard block : str) :
  transform_vcard s vcard = Ok block -> startswith BEGIN_VCARD block = true.
Proof.
  unfold transform_vcard. intros H. apply bind_ok in H.
  destruct H as [out [Hout H]]. injection H as <-.
  destruct (transform_lines_shape s _ out Hout) as [l [rest [-> _]]].
  apply join_starts_with_first.
Qed.

(** X10: the text a conversion returns is never empty: it starts with
    [BEGIN:VCARD], whatever the input was. *)
Theorem output_starts_with_begin_marker (input_text out : str) (s : settings) :
  convert_vcard_3_to_4 input_text s = Ok out ->
  startswith BEGIN_VCARD out = true.
Proof.
  unfold convert_vcard_3_to_4, converted_blocks. intros H. apply bind_ok in H.
  destruct H as [blocks [Hb H]]. injection H as <-.
  apply (convert_loop_ok s (split_vcards input_text) [] blocks
           (split_vcards_closed input_text)) in Hb.
  destruct Hb as [bs [Hall ->]]. cbn [app].
  pose proof (split_vcards_not_nil input_text) as Hne.
  destruct Hall as [| v b vs bs' Hb Hrest]; [contradiction |].
  apply (startswith_trans BEGIN_VCARD b).
  - exact (transform_vcard_starts s v b Hb).
  - apply join_starts_with_first.
Qed.

Lemma output_starts_with_begin_marker_witness :
  startswith BEGIN_VCARD (text [lit "BEGIN:VCARD"; lit "hello"; lit "END:VCARD"])
  = true.
Proof.
  apply (output_starts_with_begin_marker (lit "hello") _ (Settings true true)).
  reflexivity.
Defined.

(* ================================================================== *)
(** ** The organization line and the other lines of a block *)
(* ================================================================== *)

Lemma count_line_insert_at (i : nat) (ls : list str) :
  count_line KIND_org (insert i KIND_org ls) = S (count_line KIND_org ls).
Proof.
  unfold insert. rewrite <- (firstn_skipn i ls) at 3.
  change (firstn i ls ++ KIND_org :: skipn i ls)
    with (firstn i ls ++ [KIND_org] ++ skipn i ls).
  rewrite !count_line_app.
  assert (E : count_line KIND_org [KIND_org] = 1).
  { unfold count_line. cbn [count_occ].
    destruct (list_eq_dec N.eq_dec KIND_org KIND_org) as [_ | H];
      [reflexivity | contradiction]. }
  rewrite E. lia.
Qed.

(** X11: a block is the output of the rewrite pass with the end marker
    made sure of, and with one [KIND:org] line inserted exactly when the
    card is classified as an organization: the transformer adds no
    [KIND:org] line to any other card and never more than one. *)
Theorem kind_line_only_for_organizations (s : settings) (lines out : list str) :
  transform_lines s lines = Ok out ->
  (is_org lines = false -> out = ensure_end (rewrite_pass s lines)) /\
  (is_org lines = true ->
   exists i, find_index (startswith VERSION_) (rewrite_pass s lines) = Some i /\
             out = ensure_end (insert (i + 1) KIND_org (rewrite_pass s lines))) /\
  count_line KIND_org out
  = count_line KIND_org (rewrite_pass s lines)
    + (if is_org lines then 1 else 0).
Proof.
  unfold transform_lines, add_kind. intros H.
  destruct (is_org lines).
  - destruct (find_index (startswith VERSION_) (rewrite_pass s lines)) as [i |];
      [| discriminate H].
    cbn [bind] in H. injection H as <-.
    split; [intros C; discriminate C |].
    split; [intros _; exists i; split; reflexivity |].
    rewrite count_line_ensure_end, count_line_insert_at. lia.
  - cbn [bind] in H. injection H as <-.
    split; [reflexivity |]. split; [intros C; discriminate C |].
    rewrite count_line_ensure_end. lia.
Qed.

Lemma kind_line_only_for_organizations_witness :
  count_line KIND_org
    [lit "BEGIN:VCARD"; lit "VERSION:4.0"; lit "N:Doe;Jane;;;";
     lit "ORG:Acme"; lit "END:VCARD"]
  = count_line KIND_org
      (rewrite_pass (Settings false false)
         [lit "BEGIN:VCARD"; lit "VERSION:3.0"; lit "N:Doe;Jane";
          lit "ORG:Acme"; lit "END:VCARD"])
    + (if is_org [lit "BEGIN:VCARD"; lit "VERSION:3.0"; lit "N:Doe;Jane";
                  lit "ORG:Acme"; lit "END:VCARD"] then 1 else 0).
Proof.
  apply (kind_line_only_for_organizations (Settings false false)
           [lit "BEGIN:VCARD"; lit "VERSION:3.0"; lit "N:Doe;Jane";
            lit "ORG:Acme"; lit "END:VCARD"]).
  reflexivity.
Defined.

(* ================================================================== *)
(** ** The line loop without and with photo removal *)
(* ================================================================== *)

Lemma photo_rule_off (s : settings) (skip : bool) (line : str) :
  remove_photos s = false -> photo_rule s skip line = Proceed skip.
Proof. intros H. unfold photo_rule. rewrite H. reflexivity. Qed.

Lemma line_step_off (s : settings) (st : loop_state) (line : str) :
  remove_photos s = false ->
  line_step s st line
  = LoopState (new_lines st ++ emitted s line) (skip_photo st).
Proof.
  intros H. unfold line_step, emitted.
  destruct (falsy (strip line) || startswith BEGIN_VCARD line).
  - rewrite app_nil_r. destruct st; reflexivity.
  - rewrite (photo_rule_off s _ line H).
    destruct (field_rules s line); [reflexivity |].
    rewrite app_nil_r. reflexivity.
Qed.

Lemma fold_line_step_off (s : settings) (lines : list str) (st : loop_state) :
  remove_photos s = false ->
  fold_left (line_step s) lines st
  = LoopState (new_lines st ++ flat_map (emitted s) lines) (skip_photo st).
Proof.
  intros H. revert st. induction lines as [| line lines IH]; intros st.
  - cbn [fold_left flat_map]. rewrite app_nil_r. destruct st; reflexivity.
  - cbn [fold_left flat_map]. rewrite IH, (line_step_off s st line H).
    cbn [new_lines skip_photo]. rewrite <- app_assoc. reflexivity.
Qed.

(** X12: with photo removal off the loop keeps no state: every line is
    converted on its own, whatever stands before or after it, and the
    outputs follow each other in the order of the lines.  So the pass over
    two runs of lines is the pass over the first followed by what the
    lines of the second emit. *)
Theorem lines_converted_independently (s : settings) (lines more : list str) :
  remove_photos s = false ->
  rewrite_pass s lines = BEGIN_VCARD :: flat_map (emitted s) lines /\
  rewrite_pass s (lines ++ more)
  = rewrite_pass s lines ++ flat_map (emitted s) more.
Proof.
  intros H. unfold rewrite_pass. rewrite !(fold_line_step_off s _ _ H).
  cbn [new_lines loop_init app]. split; [reflexivity |].
  rewrite flat_map_app. reflexivity.
Qed.

Lemma lines_converted_independently_witness :
  remove_photos (Settings true false) = false /\
  rewrite_pass (Settings true false)
    [lit "BEGIN:VCARD"; lit "VERSION:3.0"; lit "PHOTO;ENCODING=b:AAAA";
     lit " BBBB"; lit "TEL;type=CELL:555-1234"]
  = BEGIN_VCARD
    :: flat_map (emitted (Settings true false))
         [lit "BEGIN:VCARD"; lit "VERSION:3.0"; lit "PHOTO;ENCODING=b:AAAA";
          lit " BBBB"; lit "TEL;type=CELL:555-1234"].
Proof.
  split; [reflexivity |].
  exact (proj1 (lines_converted_independently (Settings true false)
                  [lit "BEGIN:VCARD"; lit "VERSION:3.0";
                   lit "PHOTO;ENCODING=b:AAAA"; lit " BBBB";
                   lit "TEL;type=CELL:555-1234"] [] eq_refl)).
Defined.

Lemma line_step_passed_over (s : settings) (ls : list str) (line : str) :
  remove_photos s = true -> passed_over line = true ->
  line_step s (LoopState ls true) line = LoopState ls true.
Proof.
  intros Hp H. unfold passed_over in H. unfold line_step, photo_rule.
  rewrite Hp. cbn [skip_photo new_lines].
  destruct (falsy (strip line) || startswith BEGIN_VCARD line);
    [reflexivity |].
  cbn [orb] in H.
  destruct (startswith (lit "PHOTO;") line); [reflexivity |].
  cbn [orb] in H. rewrite H. reflexivity.
Qed.

(** X13: with photo removal on, a line that starts with [PHOTO;] is
    dropped and starts a run of skipping.  While it lasts every line is
    dropped that is blank, starts with [BEGIN:VCARD], [PHOTO;] or a
    space, or whose first character is a letter, a digit, [+], [/] or
    [=]; it ends at the first other line, which is handled as if no photo
    had come before. *)
Theorem photo_skipping_run (s : settings) (ls run : list str)
  (photo next : str) (skip : bool) :
  remove_photos s = true ->
  startswith (lit "PHOTO;") photo = true ->
  Forall (fun l => passed_over l = true) run ->
  passed_over next = false ->
  fold_left (line_step s) (photo :: run) (LoopState ls skip)
  = LoopState ls true /\
  fold_left (line_step s) (photo :: run ++ [next]) (LoopState ls skip)
  = line_step s (LoopState ls false) next /\
  skip_photo (line_step s (LoopState ls false) next) = false.
Proof.
  intros Hp Hphoto Hrun Hnext.
  assert (H1 : line_step s (LoopState ls skip) photo = LoopState ls true).
  { unfold line_step, photo_rule. rewrite Hp, Hphoto.
    cbn [skip_photo new_lines].
    apply startswith_iff in Hphoto. destruct Hphoto as [r ->].
    assert (Hblank : falsy (strip (lit "PHOTO;" ++ r)) = false).
    { destruct (falsy (strip (lit "PHOTO;" ++ r))) eqn:E; [| reflexivity].
      rewrite strip_falsy_iff in E.
      specialize (E 80%N (or_introl eq_refl)). discriminate E. }
    rewrite Hblank. cbn [orb].
    change (startswith BEGIN_VCARD (lit "PHOTO;" ++ r)) with false.
    reflexivity. }
  assert (H2 : fold_left (line_step s) run (LoopState ls true)
               = LoopState ls true).
  { induction Hrun as [| l run Hl _ IH]; [reflexivity |].
    cbn [fold_left]. rewrite (line_step_passed_over s ls l Hp Hl). exact IH. }
  assert (H3 : line_step s (LoopState ls true) next
               = line_step s (LoopState ls false) next
               /\ skip_photo (line_step s (LoopState ls false) next) = false).
  { unfold passed_over in Hnext.
    apply orb_false_iff in Hnext. destruct Hnext as [Hnext Hb64].
    apply orb_false_iff in Hnext. destruct Hnext as [Hnext Hsp].
    apply orb_false_iff in Hnext. destruct Hnext as [Hnext Hph].
    unfold line_step, photo_rule. rewrite Hp, Hnext, Hph, Hsp, Hb64.
    cbn [skip_photo new_lines orb].
    destruct (field_rules s next); split; reflexivity. }
  cbn [fold_left]. rewrite H1.
  split; [exact H2 |].
  rewrite fold_left_app, H2. cbn [fold_left]. exact H3.
Qed.

Lemma photo_skipping_run_witness :
  fold_left (line_step (Settings false true))
    (lit "PHOTO;ENCODING=b:AAAA"
     :: [lit " BBBB"; lit "CCCC=="; lit "TEL:555"] ++ [lit "_next"])
    (LoopState [BEGIN_VCARD] false)
  = line_step (Settings false true) (LoopState [BEGIN_VCARD] false)
      (lit "_next").
Proof.
  refine (proj1 (proj2 (photo_skipping_run (Settings false true) [BEGIN_VCARD]
                          [lit " BBBB"; lit "CCCC=="; lit "TEL:555"]
                          (lit "PHOTO;ENCODING=b:AAAA") (lit "_next") false
                          eq_refl eq_refl _ eq_refl))).
  repeat constructor.
Defined.

(* ================================================================== *)
(** ** What the substitutions change *)
(* ================================================================== *)

Lemma upper_cased_refl (s : str) : Forall2 upper_cased s s.
Proof. induction s; constructor; [left; reflexivity | assumption]. Qed.

Lemma type_key_upper_cased (q : str) :
  Forall2 (fun a b => eq_ignorecase a b = true) (lit "type=") q ->
  Forall2 upper_cased q (lit "TYPE=").
Proof.
  change (lit "type=") with [116%N; 121%N; 112%N; 101%N; 61%N].
  change (lit "TYPE=") with [84%N; 89%N; 80%N; 69%N; 61%N].
  intros H.
  inversion H as [| a1 b1 p1 q1 H1 R1]; subst; clear H.
  inversion R1 as [| a2 b2 p2 q2 H2 R2]; subst; clear R1.
  inversion R2 as [| a3 b3 p3 q3 H3 R3]; subst; clear R2.
  inversion R3 as [| a4 b4 p4 q4 H4 R4]; subst; clear R3.
  inversion R4 as [| a5 b5 p5 q5 H5 R5]; subst; clear R4.
  inversion R5; subst; clear R5.
  apply eq_ignorecase_cases in H1, H2, H3, H4, H5.
  destruct H5 as [-> | [H5 _]]; [| discriminate H5].
  apply Forall2_cons; [| apply Forall2_cons; [| apply Forall2_cons;
    [| apply Forall2_cons; [| apply Forall2_cons; [| apply Forall2_nil]]]]].
  - destruct H1 as [-> | [_ ->]];
      [right; split; [cbn [In]; tauto | reflexivity] | left; reflexivity].
  - destruct H2 as [-> | [_ ->]];
      [right; split; [cbn [In]; tauto | reflexivity] | left; reflexivity].
  - destruct H3 as [-> | [_ ->]];
      [right; split; [cbn [In]; tauto | reflexivity] | left; reflexivity].
  - destruct H4 as [-> | [_ ->]];
      [right; split; [cbn [In]; tauto | reflexivity] | left; reflexivity].
  - left; reflexivity.
Qed.

Lemma sub_type_upper_cased (s : str) : Forall2 upper_cased s (sub_type s).
Proof.
  unfold sub_type. apply (re_sub_scan match_type (Forall2 upper_cased)).
  - constructor.
  - intros c r _ IH. constructor; [left; reflexivity | exact IH].
  - intros c r out n E IH.
    destruct (match_type_some _ _ _ E) as [q [g [rest [Es [Hq [Hg [-> ->]]]]]]].
    assert (Hskip : skipn (pred (List.length (q ++ g))) r = rest).
    { apply (skipn_matched c); [| rewrite <- app_assoc; exact Es].
      intros E0. apply app_eq_nil in E0. destruct E0 as [_ E0]. exact (Hg E0). }
    rewrite Hskip in *. rewrite Es, <- app_assoc.
    apply Forall2_app; [apply type_key_upper_cased, Hq |].
    apply Forall2_app; [apply upper_cased_refl | exact IH].
Qed.

(** X14: the [type=] substitution, and with it the telephone and the
    e-mail rule, never changes the length of a line and changes no
    character except that it turns lower-case t, y, p and e into the
    upper-case letters. *)
Theorem type_rewrite_changes_case_only (line : str) :
  Forall2 upper_cased line (sub_type line) /\
  List.length (sub_type line) = List.length line /\
  Forall2 upper_cased line (telephone_rule line) /\
  Forall2 upper_cased line (email_rule line).
Proof.
  pose proof (sub_type_upper_cased line) as H.
  split; [exact H |].
  split; [symmetry; exact (Forall2_length H) |].
  unfold telephone_rule, email_rule.
  split.
  - destruct (startswith (lit "TEL;") line); [exact H | apply upper_cased_refl].
  - destruct (startswith (lit "EMAIL;") line); [exact H | apply upper_cased_refl].
Qed.

(* ================================================================== *)
(** ** The item prefix *)
(* ================================================================== *)

Lemma span_app_stop (p : char -> bool) (a : str) (c : char) (r : str) :
  forallb p a = true -> p c = false -> span p (a ++ c :: r) = (a, c :: r).
Proof.
  intros Ha Hc. induction a as [| x a IH]; cbn [span app].
  - rewrite Hc. reflexivity.
  - cbn [forallb] in Ha. apply andb_true_iff in Ha. destruct Ha as [Hx Ha].
    rewrite Hx, (IH Ha). reflexivity.
Qed.

Lemma match_item_matches (tok ds rest : str) :
  ds <> [] -> forallb isdecimal ds = true ->
  match_item tok (lit "item" ++ ds ++ [46%N] ++ tok ++ rest)
  = Some (tok, List.length ((lit "item" ++ ds ++ [46%N]) ++ tok)).
Proof.
  intros Hne Hds. unfold match_item.
  rewrite (proj2 (strip_prefix_iff (lit "item")
                    (lit "item" ++ ds ++ [46%N] ++ tok ++ rest)
                    (ds ++ [46%N] ++ tok ++ rest)) eq_refl).
  cbn [app].
  pose proof (span_app_stop isdecimal ds 46%N (tok ++ rest) Hds eq_refl) as E.
  pose proof (proj2 (strip_prefix_iff (46%N :: tok) (46%N :: tok ++ rest) rest)
                eq_refl) as E'.
  unfold str, char in *. rewrite E.
  destruct ds as [| d ds]; [contradiction |]. cbn [falsy].
  rewrite E'.
  f_equal. f_equal.
  change (lit "item") with [105%N; 116%N; 101%N; 109%N].
  rewrite !length_app. cbn [List.length]. lia.
Qed.

(** X15: a numeric item prefix is stripped: in front of the token,
    [item], one or more decimal digits and a dot are removed, and the
    substitution goes on behind the token.  So the URL rule turns
    [item<digits>.URL...] into [URL...], and the address rule does the
    same for [item<digits>.ADR...] before it rewrites [type=]. *)
Theorem item_prefix_stripped (tok ds rest : str) :
  ds <> [] -> forallb isdecimal ds = true ->
  sub_item tok (lit "item" ++ ds ++ [46%N] ++ tok ++ rest)
  = tok ++ sub_item tok rest /\
  (tok = URL ->
   url_rule (lit "item" ++ ds ++ [46%N] ++ tok ++ rest)
   = URL ++ sub_item URL rest) /\
  (tok = ADR ->
   address_rule (lit "item" ++ ds ++ [46%N] ++ tok ++ rest)
   = sub_type (ADR ++ sub_item ADR rest)).
Proof.
  intros Hne Hds.
  assert (H : sub_item tok (lit "item" ++ ds ++ [46%N] ++ tok ++ rest)
              = tok ++ sub_item tok rest).
  { unfold sub_item.
    pose proof (match_item_matches tok ds rest Hne Hds) as E.
    etransitivity;
      [exact (re_sub_match (match_item tok) 105%N
                (lit "tem" ++ ds ++ [46%N] ++ tok ++ rest) _ _ E) |].
    f_equal. f_equal.
    apply (skipn_matched 105%N).
    - intros E0. apply app_eq_nil in E0. destruct E0 as [E0 _]. discriminate E0.
    - rewrite <- !app_assoc. reflexivity. }
  split; [exact H |]. split.
  - intros ->. unfold url_rule.
    change (startswith (lit "item") (lit "item" ++ ds ++ [46%N] ++ URL ++ rest))
      with true.
    cbv iota. exact H.
  - intros ->. unfold address_rule.
    assert (Hc : contains ADR (lit "item" ++ ds ++ [46%N] ++ ADR ++ rest) = true).
    { apply contains_app_r, contains_app_r.
      apply (contains_app_r ADR [46%N]).
      apply contains_here, startswith_app. }
    rewrite Hc, H. reflexivity.
Qed.

Lemma item_prefix_stripped_witness :
  sub_item URL (lit "item" ++ lit "12" ++ [46%N] ++ URL ++ lit ";type=pref:http://x")
  = URL ++ sub_item URL (lit ";type=pref:http://x").
Proof.
  refine (proj1 (item_prefix_stripped URL (lit "12") (lit ";type=pref:http://x")
                   _ eq_refl)).
  discriminate.
Defined.

(* ================================================================== *)
(** ** Normalizing a structured name twice *)
(* ================================================================== *)

Lemma pop_empty_repeat (k : nat) (l : list str) :
  pop_empty (repeat [] k ++ l) = pop_empty l.
Proof. induction k as [| k IH]; [reflexivity | exact IH]. Qed.

Lemma pop_empty_idempotent (l : list str) : pop_empty (pop_empty l) = pop_empty l.
Proof.
  destruct (pop_empty_spec l) as [k [_ [-> | [h [t [-> Hh]]]]]]; [reflexivity |].
  destruct h; [contradiction | reflexivity].
Qed.

Lemma drop_trailing_empty_padded (parts : list str) (k : nat) :
  drop_trailing_empty (drop_trailing_empty parts ++ repeat [] k)
  = drop_trailing_empty parts.
Proof.
  unfold drop_trailing_empty.
  rewrite rev_app_distr, rev_repeat, rev_involutive, pop_empty_repeat,
    pop_empty_idempotent.
  reflexivity.
Qed.

(** X16: normalizing a structured name is idempotent: the [N:] rule leaves
    a line unchanged that it has produced. *)
Theorem name_rule_idempotent (line : str) :
  normalize_n (normalize_n line) = normalize_n line /\
  name_rule (name_rule line) = name_rule line.
Proof.
  assert (H : normalize_n (normalize_n line) = normalize_n line).
  { change (normalize_n (normalize_n line))
      with (N_ ++ join [semicolon] (padded_components (normalize_n line))).
    change (normalize_n line)
      with (N_ ++ join [semicolon] (padded_components line)) at 2.
    f_equal. f_equal.
    unfold padded_components at 1. unfold kept_components.
    rewrite normalize_n_components. unfold padded_components, kept_components.
    rewrite drop_trailing_empty_padded. reflexivity. }
  split; [exact H |].
  unfold name_rule.
  destruct (startswith N_ line) eqn:E.
  - change (startswith N_ (normalize_n line)) with true. cbv iota. exact H.
  - rewrite E. reflexivity.
Qed.

(* ================================================================== *)
(** ** How many blocks *)
(* ================================================================== *)

(** X17: when the conversion returns, the number of its blocks is the
    number of begin-marker lines of the input, plus one when the first
    line of the input is no begin marker; for an input that starts with a
    begin marker the two numbers are equal. *)
Theorem block_count_formula (input_text : str) (s : settings)
  (blocks : list str) :
  converted_blocks input_text s = Ok blocks ->
  List.length blocks
  = begin_marker_count input_text
    + (if startswith BEGIN_VCARD (hd [] (input_lines input_text))
       then 0 else 1) /\
  (startswith BEGIN_VCARD (hd [] (input_lines input_text)) = true ->
   List.length blocks = begin_marker_count input_text).
Proof.
  intros H. pose proof (converted_blocks_count input_text s blocks H) as E.
  split; [exact E |].
  intros Hb. rewrite Hb in E. rewrite E. apply Nat.add_0_r.
Qed.

Lemma block_count_formula_witness :
  List.length
    [text [lit "BEGIN:VCARD"; lit "FN:A"; lit "END:VCARD"];
     text [lit "BEGIN:VCARD"; lit "FN:B"; lit "END:VCARD"]]
  = begin_marker_count
      (text [lit "BEGIN:VCARD"; lit "FN:A"; lit "END:VCARD";
             lit "BEGIN:VCARD"; lit "FN:B"]).
Proof.
  refine (proj2 (block_count_formula
                   (text [lit "BEGIN:VCARD"; lit "FN:A"; lit "END:VCARD";
                          lit "BEGIN:VCARD"; lit "FN:B"])
                   (Settings false false) _ eq_refl) eq_refl).
Defined.

(* ================================================================== *)
(** ** Where the lines of a block come from *)
(* ================================================================== *)

Lemma line_step_cases (s : settings) (st : loop_state) (line : str) :
  new_lines (line_step s st line) = new_lines st \/
  exists out,
    falsy (strip line) = false /\ field_rules s line = Some out /\
    new_lines (line_step s st line) = new_lines st ++ [out].
Proof.
  unfold line_step.
  destruct (falsy (strip line)) eqn:Hb; [left; reflexivity |].
  cbn [orb].
  destruct (startswith BEGIN_VCARD line); [left; reflexivity |].
  destruct (photo_rule s (skip_photo st) line); [left; reflexivity |].
  destruct (field_rules s line) as [out |]; [| left; reflexivity].
  right. exists out. repeat split.
Qed.

Lemma fold_line_step_subsequence (s : settings) (lines : list str)
  (st : loop_state) :
  exists kept outs,
    subsequence kept lines /\
    Forall2 (fun l o => falsy (strip l) = false /\ field_rules s l = Some o)
      kept outs /\
    new_lines (fold_left (line_step s) lines st) = new_lines st ++ outs.
Proof.
  revert st. induction lines as [| line lines IH]; intros st.
  - exists [], []. split; [constructor |]. split; [constructor |].
    symmetry. apply app_nil_r.
  - cbn [fold_left].
    destruct (IH (line_step s st line)) as [kept [outs [Hsub [Hall E]]]].
    destruct (line_step_cases s st line) as [Hsame | [out [Hb [Hf Happ]]]].
    + exists kept, outs. split; [constructor; exact Hsub |].
      split; [exact Hall |]. rewrite E, Hsame. reflexivity.
    + exists (line :: kept), (out :: outs).
      split; [constructor; exact Hsub |].
      split; [constructor; [split; assumption | exact Hall] |].
      rewrite E, Happ, <- app_assoc. reflexivity.
Qed.

(** X18: behind [BEGIN:VCARD], the rewrite pass emits what the field rules
    give for some of the lines of the card, in the order of these lines:
    a line is dropped or rewritten, never emitted twice, moved or made up,
    and no blank line is ever handed to the rules. *)
Theorem rewrite_pass_subsequence (s : settings) (lines : list str) :
  exists kept outs,
    subsequence kept lines /\
    Forall2 (fun l o => falsy (strip l) = false /\ field_rules s l = Some o)
      kept outs /\
    rewrite_pass s lines = BEGIN_VCARD :: outs.
Proof.
  destruct (fold_line_step_subsequence s lines loop_init)
    as [kept [outs [Hsub [Hall E]]]].
  exists kept, outs. split; [exact Hsub |]. split; [exact Hall |].
  exact E.
Qed.

Lemma subsequence_in (kept lines : list str) (l : str) :
  subsequence kept lines -> In l kept -> In l lines.
Proof.
  intros H. induction H as [| x kept lines _ IH | x kept lines _ IH];
    intros Hin.
  - exact Hin.
  - right. apply IH, Hin.
  - destruct Hin as [<- | Hin]; [left; reflexivity | right; apply IH, Hin].
Qed.

Section BlockLinesFrom.

Variable Q : str -> Prop.
Variable s : settings.
Variable lines : list str.
Hypothesis Q_begin : Q BEGIN_VCARD.
Hypothesis Q_kind : Q KIND_org.
Hypothesis Q_end : Q END_VCARD.
Hypothesis Q_rules :
  forall line out,
    In line lines -> falsy (strip line) = false ->
    field_rules s line = Some out -> Q out.

Lemma rewrite_pass_forall_from : Forall Q (rewrite_pass s lines).
Proof.
  destruct (fold_line_step_subsequence s lines loop_init)
    as [kept [outs [Hsub [Hall E]]]].
  unfold rewrite_pass. rewrite E. cbn [new_lines loop_init app].
  constructor; [exact Q_begin |].
  assert (Hk : forall l, In l kept -> In l lines)
    by (intros l; apply subsequence_in, Hsub).
  clear E Hsub. induction Hall as [| l o kept outs [Hb Hf] _ IH];
    constructor.
  - exact (Q_rules l o (Hk l (or_introl eq_refl)) Hb Hf).
  - apply IH. intros x Hx. apply Hk. right; exact Hx.
Qed.

Lemma transform_lines_forall_from (out : list str) :
  transform_lines s lines = Ok out -> Forall Q out.
Proof.
  unfold transform_lines. intros H. apply bind_ok in H.
  destruct H as [ls [Hk H]]. injection H as <-.
  apply (ensure_end_forall Q Q_end).
  unfold add_kind in Hk. destruct (is_org lines).
  - destruct (find_index (startswith VERSION_) (rewrite_pass s lines));
      [| discriminate Hk].
    injection Hk as <-.
    apply (insert_forall Q Q_kind), rewrite_pass_forall_from.
  - injection Hk as <-. apply rewrite_pass_forall_from.
Qed.

End BlockLinesFrom.

(* ================================================================== *)
(** ** Blank lines and newlines *)
(* ================================================================== *)

Lemma falsy_strip_ink (l : str) : falsy (strip l) = negb (has_ink l).
Proof.
  unfold has_ink. destruct (existsb (fun c => negb (isspace c)) l) eqn:E.
  - apply existsb_exists in E. destruct E as [c [Hc Hs]].
    destruct (falsy (strip l)) eqn:F; [| reflexivity].
    rewrite strip_falsy_iff in F. rewrite (F c Hc) in Hs. discriminate Hs.
  - apply (proj2 (strip_falsy_iff l)). intros c Hc.
    destruct (isspace c) eqn:Hs; [reflexivity |].
    assert (C : existsb (fun c => negb (isspace c)) l = true).
    { apply existsb_exists. exists c. rewrite Hs. split; [exact Hc | reflexivity]. }
    rewrite C in E. discriminate E.
Qed.

Lemma has_ink_app_l (a b : str) : has_ink a = true -> has_ink (a ++ b) = true.
Proof. intros H. unfold has_ink in *. rewrite existsb_app, H. reflexivity. Qed.

Lemma has_ink_app_r (a b : str) : has_ink b = true -> has_ink (a ++ b) = true.
Proof.
  intros H. unfold has_ink in *. rewrite existsb_app, H. apply orb_true_r.
Qed.

Lemma upper_cased_cases (c c' : char) :
  upper_cased c c' -> c' = c \/ In c' [84%N; 89%N; 80%N; 69%N].
Proof.
  intros [H | [Hc ->]]; [left; exact H | right].
  cbn [In] in Hc.
  destruct Hc as [<- | [<- | [<- | [<- | []]]]]; cbn [In]; tauto.
Qed.

Lemma Forall2_in_r (A B : Type) (R : A -> B -> Prop) (l : list A)
  (l' : list B) (y : B) :
  Forall2 R l l' -> In y l' -> exists x, In x l /\ R x y.
Proof.
  intros H. induction H as [| a b l l' Hab _ IH]; intros Hin; [destruct Hin |].
  destruct Hin as [<- | Hin].
  - exists a. split; [left; reflexivity | exact Hab].
  - destruct (IH Hin) as [x [Hx Hr]]. exists x. split; [right; exact Hx | exact Hr].
Qed.

Lemma sub_type_chars (s : str) (c : char) :
  In c (sub_type s) -> In c s \/ In c rule_characters.
Proof.
  intros H.
  destruct (Forall2_in_r _ _ _ _ _ c (sub_type_upper_cased s) H) as [x [Hx Hu]].
  destruct (upper_cased_cases x c Hu) as [-> | Hc]; [left; exact Hx | right].
  unfold rule_characters. cbn [In] in *. tauto.
Qed.

Lemma in_skipn (A : Type) (n : nat) (l : list A) (x : A) :
  In x (skipn n l) -> In x l.
Proof.
  intros H. rewrite <- (firstn_skipn n l). apply in_or_app. right; exact H.
Qed.

Lemma sub_item_chars (tok s : str) (c : char) :
  In c (sub_item tok s) -> In c s \/ In c tok.
Proof.
  unfold sub_item. revert c.
  apply (re_sub_scan (match_item tok)
           (fun s s' => forall c, In c s' -> In c s \/ In c tok)).
  - intros c [].
  - intros c0 r _ IH c [<- | Hc]; [left; left; reflexivity |].
    destruct (IH c Hc) as [H | H]; [left; right; exact H | right; exact H].
  - intros c0 r out n E IH c Hc.
    destruct (match_item_some _ _ _ _ E) as [ds [rest [_ [_ [_ [-> _]]]]]].
    apply in_app_or in Hc. destruct Hc as [Hc | Hc]; [right; exact Hc |].
    destruct (IH c Hc) as [H | H]; [| right; exact H].
    left. right. exact (in_skipn _ _ _ _ H).
Qed.

Lemma name_components_from_line (line part : str) (c : char) :
  In part (name_components line) -> In c part -> In c line.
Proof.
  unfold name_components. intros Hp Hc.
  destruct (split_pieces _ _ _ Hp) as [_ Hsub]. specialize (Hsub _ Hc).
  destruct (nth_in_or_default 1 (split colon line) []) as [Hn | Hn].
  - destruct (split_pieces _ _ _ Hn) as [_ Hsub']. exact (Hsub' _ Hsub).
  - rewrite Hn in Hsub. destruct Hsub.
Qed.

Lemma normalize_n_chars (line : str) (c : char) :
  In c (normalize_n line) -> In c line \/ In c rule_characters.
Proof.
  change (normalize_n line)
    with (N_ ++ join [semicolon] (padded_components line)).
  intros H. apply in_app_or in H. destruct H as [H | H].
  - right. vm_compute in H. unfold rule_characters. cbn [In]. tauto.
  - apply join_chars in H. destruct H as [H | [p [Hp Hc]]].
    + right. vm_compute in H. unfold rule_characters. cbn [In]. tauto.
    + left. unfold padded_components, kept_components in Hp.
      apply in_app_or in Hp. destruct Hp as [Hp | Hp].
      * apply drop_trailing_empty_incl in Hp.
        exact (name_components_from_line line p c Hp Hc).
      * apply repeat_spec in Hp. subst p. destruct Hc.
Qed.

(** The rewriting rules put no characters into a line but those of
    [rule_characters]. *)
Lemma rewrite_line_chars (line : str) (c : char) :
  In c (rewrite_line line) -> In c line \/ In c rule_characters.
Proof.
  assert (Hty : forall s, (forall c, In c s -> In c line \/ In c rule_characters) ->
                          forall c, In c (sub_type s) ->
                                    In c line \/ In c rule_characters).
  { intros s Hs x Hx. destruct (sub_type_chars s x Hx) as [H | H];
      [exact (Hs x H) | right; exact H]. }
  assert (Hit : forall tok s, tok = ADR \/ tok = URL ->
                  (forall c, In c s -> In c line \/ In c rule_characters) ->
                  forall c, In c (sub_item tok s) ->
                            In c line \/ In c rule_characters).
  { intros tok s Htok Hs x Hx. destruct (sub_item_chars tok s x Hx) as [H | H];
      [exact (Hs x H) |].
    right. destruct Htok as [-> | ->]; vm_compute in H;
      unfold rule_characters; cbn [In]; tauto. }
  assert (H1 : forall c, In c (address_rule line) ->
                         In c line \/ In c rule_characters).
  { unfold address_rule. destruct (contains ADR line); [| intros x Hx; left; exact Hx].
    apply Hty, Hit; [left; reflexivity | intros x Hx; left; exact Hx]. }
  assert (H2 : forall c, In c (telephone_rule (address_rule line)) ->
                         In c line \/ In c rule_characters).
  { unfold telephone_rule. destruct (startswith _ _); [apply Hty |]; exact H1. }
  assert (H3 : forall c, In c (email_rule (telephone_rule (address_rule line)))
                         -> In c line \/ In c rule_characters).
  { unfold email_rule. destruct (startswith _ _); [apply Hty |]; exact H2. }
  assert (H4 : forall c, In c (before_name_rule line) ->
                         In c line \/ In c rule_characters).
  { unfold before_name_rule, url_rule.
    destruct (startswith _ _); [apply Hit; [right; reflexivity |] |]; exact H3. }
  change (rewrite_line line) with (name_rule (before_name_rule line)).
  unfold name_rule. destruct (startswith N_ (before_name_rule line));
    [| apply H4].
  intros Hc. destruct (normalize_n_chars _ c Hc) as [H | H];
    [apply H4, H | right; exact H].
Qed.

Lemma sub_type_ink (s : str) : has_ink s = true -> has_ink (sub_type s) = true.
Proof.
  pose proof (sub_type_upper_cased s) as H.
  induction H as [| c c' s s' Hc _ IH]; intros Hink; [exact Hink |].
  unfold has_ink in *. cbn [existsb] in *.
  apply orb_true_iff in Hink. apply orb_true_iff.
  destruct Hink as [Hink | Hink]; [left | right; apply IH, Hink].
  destruct (upper_cased_cases c c' Hc) as [-> | Hc']; [exact Hink |].
  cbn [In] in Hc'.
  destruct Hc' as [<- | [<- | [<- | [<- | []]]]]; reflexivity.
Qed.

Lemma sub_item_ink (tok s : str) :
  tok = ADR \/ tok = URL ->
  has_ink s = true -> has_ink (sub_item tok s) = true.
Proof.
  intros Htok. unfold sub_item.
  apply (re_sub_scan (match_item tok)
           (fun s s' => has_ink s = true -> has_ink s' = true)).
  - intros H; exact H.
  - intros c r _ IH H. unfold has_ink in *. cbn [existsb] in *.
    apply orb_true_iff in H. apply orb_true_iff.
    destruct H as [H | H]; [left; exact H | right; apply IH, H].
  - intros c r out n E _ _.
    destruct (match_item_some _ _ _ _ E) as [ds [rest [_ [_ [_ [-> _]]]]]].
    apply has_ink_app_l. destruct Htok as [-> | ->]; reflexivity.
Qed.

Lemma rewrite_line_ink (line : str) :
  has_ink line = true -> has_ink (rewrite_line line) = true.
Proof.
  intros H.
  assert (H1 : has_ink (address_rule line) = true).
  { unfold address_rule. destruct (contains ADR line); [| exact H].
    apply sub_type_ink, sub_item_ink; [left; reflexivity | exact H]. }
  assert (H2 : has_ink (telephone_rule (address_rule line)) = true).
  { unfold telephone_rule. destruct (startswith _ _);
      [apply sub_type_ink |]; exact H1. }
  assert (H3 : has_ink (email_rule (telephone_rule (address_rule line))) = true).
  { unfold email_rule. destruct (startswith _ _);
      [apply sub_type_ink |]; exact H2. }
  assert (H4 : has_ink (before_name_rule line) = true).
  { unfold before_name_rule, url_rule. destruct (startswith _ _);
      [apply sub_item_ink; [right; reflexivity |] |]; exact H3. }
  change (rewrite_line line) with (name_rule (before_name_rule line)).
  unfold name_rule. destruct (startswith N_ (before_name_rule line));
    [| exact H4].
  change (normalize_n (before_name_rule line))
    with (N_ ++ join [semicolon] (padded_components (before_name_rule line))).
  apply has_ink_app_l. reflexivity.
Qed.

(** A line the rules emit for a line that is not blank and holds no
    newline is not blank and holds no newline. *)
Lemma field_rules_clean (s : settings) (line out : str) :
  falsy (strip line) = false -> ~ In nl line ->
  field_rules s line = Some out ->
  falsy (strip out) = false /\ ~ In nl out.
Proof.
  intros Hb Hn Hf.
  destruct (field_rules_some s line out Hf) as [[_ ->] | [_ [-> _]]].
  - split; [reflexivity |]. intros H. vm_compute in H. intuition discriminate.
  - rewrite falsy_strip_ink in *. apply negb_false_iff in Hb.
    split; [apply negb_false_iff, rewrite_line_ink, Hb |].
    intros H. destruct (rewrite_line_chars line nl H) as [H' | H'];
      [exact (Hn H') |].
    vm_compute in H'. intuition discriminate.
Qed.

Lemma transform_lines_clean (s : settings) (vcard : str) (out : list str) :
  transform_lines s (card_lines vcard) = Ok out ->
  Forall (fun l => falsy (strip l) = false /\ ~ In nl l) out.
Proof.
  apply (transform_lines_forall_from
           (fun l => falsy (strip l) = false /\ ~ In nl l) s (card_lines vcard)).
  - split; [reflexivity |]. intros H. vm_compute in H. intuition discriminate.
  - split; [reflexivity |]. intros H. vm_compute in H. intuition discriminate.
  - split; [reflexivity |]. intros H. vm_compute in H. intuition discriminate.
  - intros line o Hin Hb Hf. apply (field_rules_clean s line o Hb); [| exact Hf].
    exact (proj1 (split_pieces _ _ _ Hin)).
Qed.

(** X19: no line of a block is blank and none holds a newline, so the
    lines of a block are exactly what splitting its text on newlines
    gives. *)
Theorem block_lines_not_blank (s : settings) (vcard block : str) :
  transform_vcard s vcard = Ok block ->
  exists out,
    transform_lines s (card_lines vcard) = Ok out /\
    block = join [nl] out /\
    split nl block = out /\
    forall l, In l out -> falsy (strip l) = false /\ l <> [].
Proof.
  unfold transform_vcard. intros H. apply bind_ok in H.
  destruct H as [out [Hout H]]. injection H as <-.
  pose proof (transform_lines_clean s vcard out Hout) as Hc.
  exists out. split; [exact Hout |]. split; [reflexivity |].
  split.
  - apply split_join.
    + destruct (transform_lines_shape s _ out Hout) as [l [rest [-> _]]].
      discriminate.
    + apply Forall_forall. intros l Hl.
      exact (proj2 (proj1 (Forall_forall _ out) Hc l Hl)).
  - intros l Hl. destruct (proj1 (Forall_forall _ out) Hc l Hl) as [Hb _].
    split; [exact Hb |]. intros ->. vm_compute in Hb. discriminate Hb.
Qed.

Lemma block_lines_not_blank_witness :
  exists out,
    transform_lines (Settings false false)
      (card_lines (text [lit "BEGIN:VCARD"; []; lit "FN:Jane"; lit "   ";
                         lit "END:VCARD"])) = Ok out /\
    text [lit "BEGIN:VCARD"; lit "FN:Jane"; lit "END:VCARD"] = join [nl] out /\
    split nl (text [lit "BEGIN:VCARD"; lit "FN:Jane"; lit "END:VCARD"]) = out /\
    forall l, In l out -> falsy (strip l) = false /\ l <> [].
Proof.
  apply (block_lines_not_blank (Settings false false)
           (text [lit "BEGIN:VCARD"; []; lit "FN:Jane"; lit "   ";
                  lit "END:VCARD"])).
  reflexivity.
Defined.

(* ================================================================== *)
(** ** The lines of the output *)
(* ================================================================== *)

Lemma split_app_sep_any (sep : char) (a b : str) :
  split sep (a ++ sep :: b) = split sep a ++ split sep b.
Proof.
  induction a as [| c a IH].
  - cbn [app]. rewrite split_cons_sep. reflexivity.
  - cbn [app]. destruct (N.eq_dec c sep) as [-> | Hc].
    + rewrite !split_cons_sep, IH. reflexivity.
    + destruct (split_cons_other (a ++ sep :: b) Hc) as [h [t [E1 E2]]].
      destruct (split_cons_other a Hc) as [h' [t' [E1' E2']]].
      rewrite E2, E2'. rewrite IH, E1' in E1. injection E1 as <- <-.
      reflexivity.
Qed.

Lemma split_joined_blocks (bl : list (list str)) :
  Forall (fun ls => ls <> [] /\ Forall (fun l => ~ In nl l) ls) bl ->
  split nl (join [nl; nl] (map (join [nl]) bl)) = blocks_lines bl.
Proof.
  intros H. induction H as [| b rest [Hne Hb] Hrest IH]; [reflexivity |].
  destruct rest as [| b2 rest].
  - cbn [map join blocks_lines]. apply split_join; assumption.
  - change (join [nl; nl] (map (join [nl]) (b :: b2 :: rest)))
      with (join [nl] b ++ nl :: nl :: join [nl; nl] (map (join [nl]) (b2 :: rest))).
    rewrite split_app_sep_any, split_cons_sep, IH.
    rewrite (@split_join nl b Hne Hb). reflexivity.
Qed.

Lemma blocks_of_lines (s : settings) (cards blocks : list str) :
  Forall2 (fun v b => transform_vcard s v = Ok b) cards blocks ->
  exists bl,
    Forall2 (fun v ls => transform_lines s (card_lines v) = Ok ls) cards bl /\
    blocks = map (join [nl]) bl.
Proof.
  intros H. induction H as [| v b cards blocks Hb _ [bl [Hall ->]]].
  - exists []. split; [constructor | reflexivity].
  - unfold transform_vcard in Hb. apply bind_ok in Hb.
    destruct Hb as [ls [Hls Hb]]. injection Hb as <-.
    exists (ls :: bl). split; [constructor; assumption | reflexivity].
Qed.

(** X20: the text a conversion returns is, line by line, the blocks of
    the transformed cards in the order of the cards, with one empty line
    between two blocks; no line of a block is empty, so the empty lines of
    the output are exactly the separators and the blocks can be read back
    from the text. *)
Theorem output_lines_are_block_lines (input_text out : str) (s : settings) :
  convert_vcard_3_to_4 input_text s = Ok out ->
  exists bl,
    Forall2 (fun vcard ls => transform_lines s (card_lines vcard) = Ok ls)
      (split_vcards input_text) bl /\
    split nl out = blocks_lines bl /\
    forall ls l, In ls bl -> In l ls -> l <> [].
Proof.
  unfold convert_vcard_3_to_4, converted_blocks. intros H. apply bind_ok in H.
  destruct H as [blocks [Hb H]]. injection H as <-.
  apply (convert_loop_ok s (split_vcards input_text) [] blocks
           (split_vcards_closed input_text)) in Hb.
  destruct Hb as [bs [Hall ->]]. cbn [app].
  destruct (blocks_of_lines s _ _ Hall) as [bl [Hbl ->]].
  exists bl. split; [exact Hbl |].
  assert (Hclean : Forall (fun ls => ls <> [] /\
                             Forall (fun l => falsy (strip l) = false
                                              /\ ~ In nl l) ls) bl).
  { clear Hall. induction Hbl as [| v ls cards bl Hls _ IH]; constructor.
    - split.
      + destruct (transform_lines_shape s _ ls Hls) as [l [rest [-> _]]].
        discriminate.
      + exact (transform_lines_clean s v ls Hls).
    - exact IH. }
  split.
  - apply split_joined_blocks.
    apply (Forall_impl _ (P := fun ls => ls <> [] /\
              Forall (fun l => falsy (strip l) = false /\ ~ In nl l) ls));
      [| exact Hclean].
    intros ls [Hne Hls]. split; [exact Hne |].
    apply (Forall_impl _ (P := fun l => falsy (strip l) = false /\ ~ In nl l));
      [| exact Hls].
    intros l [_ Hn]. exact Hn.
  - intros ls l Hls Hl.
    destruct (proj1 (Forall_forall _ bl) Hclean ls Hls) as [_ Hc].
    destruct (proj1 (Forall_forall _ ls) Hc l Hl) as [Hb _].
    intros ->. vm_compute in Hb. discriminate Hb.
Qed.

Lemma output_lines_are_block_lines_witness :
  exists bl,
    Forall2 (fun vcard ls =>
               transform_lines (Settings false false) (card_lines vcard) = Ok ls)
      (split_vcards (text [lit "BEGIN:VCARD"; lit "FN:A"; [];
                           lit "BEGIN:VCARD"; lit "FN:B"])) bl /\
    split nl (text [lit "BEGIN:VCARD"; lit "FN:A"; lit "END:VCARD"; [];
                    lit "BEGIN:VCARD"; lit "FN:B"; lit "END:VCARD"])
    = blocks_lines bl /\
    forall ls l, In ls bl -> In l ls -> l <> [].
Proof.
  apply (output_lines_are_block_lines
           (text [lit "BEGIN:VCARD"; lit "FN:A"; [];
                  lit "BEGIN:VCARD"; lit "FN:B"]) _ (Settings false false)).
  reflexivity.
Defined.

(* ================================================================== *)
(** ** What the classification looks at *)
(* ================================================================== *)

Lemma find_first_decides (A : Type) (p : A -> bool) (before after : list A)
  (x y : A) :
  In x before -> p x = true ->
  find p (before ++ y :: after) = find p (before ++ after).
Proof.
  intros Hin Hx. induction before as [| z before IH]; [destruct Hin |].
  cbn [app find]. destruct (p z) eqn:Hz; [reflexivity |].
  destruct Hin as [-> | Hin]; [rewrite Hx in Hz; discriminate Hz |].
  apply IH, Hin.
Qed.

(** X21: the classification of a card looks at three kinds of lines only:
    those that start with [X-ABShowAs:COMPANY], those that start with
    [ORG:], and the first line that starts with [N:].  Taking any other
    line out of the card, also a second [N:] line, leaves the
    classification as it is. *)
Theorem classification_ignores_other_lines (before after : list str)
  (line : str) :
  startswith X_ABShowAs_COMPANY line = false ->
  startswith (lit "ORG:") line = false ->
  startswith N_ line = false \/
  (exists first, In first before /\ startswith N_ first = true) ->
  is_org (before ++ line :: after) = is_org (before ++ after).
Proof.
  intros Hx Horg Hn.
  assert (Hfind : find (startswith N_) (before ++ line :: after)
                  = find (startswith N_) (before ++ after)).
  { destruct Hn as [Hn | [first [Hin Hf]]].
    - apply find_skips, Hn.
    - exact (find_first_decides _ _ before after first line Hin Hf). }
  assert (He : has_empty_n (before ++ line :: after)
               = has_empty_n (before ++ after)).
  { unfold has_empty_n. rewrite !n_parts_find, Hfind. reflexivity. }
  unfold is_org. f_equal; [| f_equal; [exact He |]];
    apply existsb_skips; assumption.
Qed.

Lemma classification_ignores_other_lines_witness :
  is_org ([lit "BEGIN:VCARD"; lit "N:;;;;"] ++ lit "N:Doe;Jane;;;"
          :: [lit "ORG:Acme"; lit "END:VCARD"])
  = is_org ([lit "BEGIN:VCARD"; lit "N:;;;;"]
            ++ [lit "ORG:Acme"; lit "END:VCARD"]).
Proof.
  apply classification_ignores_other_lines.
  - reflexivity.
  - reflexivity.
  - right. exists (lit "N:;;;;"). split; [right; left; reflexivity | reflexivity].
Defined.

(* ================================================================== *)
(** ** The value of a structured name *)
(* ================================================================== *)

Lemma field_value_N (v : str) : field_value (N_ ++ v) = v.
Proof. reflexivity. Qed.

Lemma re_sub_skips_head (m : str -> option (str * nat))
  (hin hout : char -> Prop) (c : char) (r : str) :
  heads m hin hout -> ~ hin c ->
  re_sub m 0 (c :: r) = c :: re_sub m 0 r.
Proof.
  intros Hm Hc. apply re_sub_no_match.
  destruct (m (c :: r)) as [[out n] |] eqn:E; [| reflexivity].
  destruct (Hm _ _ _ E) as [[c' [r' [Es Hc']]] _].
  injection Es as <- <-. contradiction.
Qed.

(** The address rule works behind the [N:] of a structured-name line. *)
Lemma address_rule_value (v : str) :
  address_rule (N_ ++ v)
  = N_ ++ (if contains ADR (N_ ++ v) then sub_type (sub_item ADR v) else v).
Proof.
  unfold address_rule. destruct (contains ADR (N_ ++ v)); [| reflexivity].
  change (N_ ++ v) with (78%N :: 58%N :: v).
  change (N_ ++ sub_type (sub_item ADR v))
    with (78%N :: 58%N :: sub_type (sub_item ADR v)).
  unfold sub_item, sub_type.
  pose proof (match_item_heads ADR 65%N (lit "DR") eq_refl) as Hi.
  rewrite (re_sub_skips_head _ _ _ 78%N _ Hi) by discriminate.
  rewrite (re_sub_skips_head _ _ _ 58%N _ Hi) by discriminate.
  rewrite (re_sub_skips_head _ _ _ 78%N _ match_type_heads)
    by (intros [H | H]; discriminate H).
  rewrite (re_sub_skips_head _ _ _ 58%N _ match_type_heads)
    by (intros [H | H]; discriminate H).
  reflexivity.
Qed.

Lemma substitutions_add_no_colon (v : str) :
  ~ In colon v -> ~ In colon (sub_type (sub_item ADR v)).
Proof.
  intros Hv H.
  destruct (Forall2_in_r _ _ _ _ _ colon
              (sub_type_upper_cased (sub_item ADR v)) H) as [x [Hx Hu]].
  destruct (upper_cased_cases x colon Hu) as [E | E].
  - subst x. destruct (sub_item_chars ADR v colon Hx) as [H' | H'].
    + exact (Hv H').
    + vm_compute in H'. intuition discriminate.
  - vm_compute in E. intuition discriminate.
Qed.

Lemma name_components_value (line : str) :
  startswith N_ line = true -> ~ In colon (field_value line) ->
  name_components line = value_components line.
Proof.
  intros Hs Hv. apply startswith_iff in Hs. destruct Hs as [v ->].
  rewrite field_value_N in Hv. unfold value_components.
  rewrite field_value_N. exact (@name_components_of_value v Hv).
Qed.

Lemma normalize_n_value (v : str) :
  ~ In colon v ->
  normalize_n (N_ ++ v)
  = N_ ++ join [semicolon]
            (drop_trailing_empty (split semicolon v)
             ++ repeat [] (5 - List.length
                                 (drop_trailing_empty (split semicolon v)))).
Proof.
  intros H. unfold normalize_n. rewrite (@name_components_of_value v H).
  reflexivity.
Qed.

(** C7 (as amended): take a line that starts with [N:] and whose value,
    the text behind [N:], holds no colon.  The name rule sees the line as
    the address rule left it (the line itself unless it holds the address
    token); that line still starts with [N:] and its value still holds no
    colon.  The components of this value, separated by semicolons, are
    some components [kept], the last of which is not empty, followed by
    empty ones; the emitted line is [N:] with [kept] padded with empty
    components up to five.  So the value of the emitted line has five
    components when at most five are kept and all of them when more are
    kept: nothing is cut off. *)
Theorem structured_name_padded_not_truncated (line : str) :
  startswith N_ line = true ->
  ~ In colon (field_value line) ->
  startswith N_ (address_rule line) = true /\
  ~ In colon (field_value (address_rule line)) /\
  (contains ADR line = false -> address_rule line = line) /\
  exists kept k,
    value_components (address_rule line) = kept ++ repeat [] k /\
    (kept = [] \/ last kept [] <> []) /\
    rewrite_line line
      = N_ ++ join [semicolon] (kept ++ repeat [] (5 - List.length kept)) /\
    value_components (rewrite_line line)
      = kept ++ repeat [] (5 - List.length kept) /\
    List.length (value_components (rewrite_line line))
      = Nat.max 5 (List.length kept).
Proof.
  intros Hs Hv.
  assert (Hrw : rewrite_line line = normalize_n (address_rule line)).
  { rewrite <- name_prefix_colon in Hs.
    destruct (rewrite_line_name colon line (or_introl eq_refl) Hs) as [H1 H2].
    rewrite name_prefix_colon in H1. rewrite H1 in H2. exact H2. }
  apply startswith_iff in Hs. destruct Hs as [v ->].
  rewrite field_value_N in Hv.
  assert (Ha : exists v1,
             address_rule (N_ ++ v) = N_ ++ v1 /\ ~ In colon v1 /\
             (contains ADR (N_ ++ v) = false -> v1 = v)).
  { rewrite address_rule_value. destruct (contains ADR (N_ ++ v)).
    - exists (sub_type (sub_item ADR v)). split; [reflexivity |].
      split; [apply substitutions_add_no_colon, Hv | intros C; discriminate C].
    - exists v. split; [reflexivity |]. split; [exact Hv | reflexivity]. }
  destruct Ha as [v1 [Ha [Hv1 Hsame]]].
  rewrite Ha in Hrw. rewrite Ha.
  split; [apply startswith_app |].
  split; [exact Hv1 |].
  split; [intros Hadr; rewrite (Hsame Hadr); reflexivity |].
  destruct (drop_trailing_empty_spec (split semicolon v1)) as [k [E Hlast]].
  set (kept := drop_trailing_empty (split semicolon v1)) in *.
  assert (Hn : rewrite_line (N_ ++ v)
               = N_ ++ join [semicolon]
                         (kept ++ repeat [] (5 - List.length kept))).
  { etransitivity; [exact Hrw |]. exact (normalize_n_value v1 Hv1). }
  assert (Hpad : split semicolon
                   (join [semicolon]
                      (kept ++ repeat [] (5 - List.length kept)))
                 = kept ++ repeat [] (5 - List.length kept)).
  { apply split_join.
    - intros E0. apply (f_equal (@List.length str)) in E0.
      rewrite length_app, repeat_length in E0. cbn [List.length] in E0. lia.
    - apply Forall_forall. intros p Hp Hc.
      apply in_app_or in Hp. destruct Hp as [Hp | Hp].
      + apply drop_trailing_empty_incl in Hp.
        exact (proj1 (split_pieces _ _ _ Hp) Hc).
      + apply repeat_spec in Hp. subst p. destruct Hc. }
  exists kept, k.
  split; [exact E |]. split; [exact Hlast |]. split; [exact Hn |].
  assert (Hval : value_components (rewrite_line (N_ ++ v))
                 = kept ++ repeat [] (5 - List.length kept)).
  { etransitivity; [exact (f_equal value_components Hn) |]. exact Hpad. }
  split; [exact Hval |].
  etransitivity; [exact (f_equal (@List.length str) Hval) |].
  rewrite length_app, repeat_length. unfold str. lia.
Qed.

Lemma structured_name_padded_not_truncated_witness :
  startswith N_ (lit "N:Smith;;;;;;") = true /\
  ~ In colon (field_value (lit "N:Smith;;;;;;")) /\
  exists kept k,
    value_components (address_rule (lit "N:Smith;;;;;;")) = kept ++ repeat [] k /\
    (kept = [] \/ last kept [] <> []) /\
    rewrite_line (lit "N:Smith;;;;;;")
      = N_ ++ join [semicolon] (kept ++ repeat [] (5 - List.length kept)) /\
    value_components (rewrite_line (lit "N:Smith;;;;;;"))
      = kept ++ repeat [] (5 - List.length kept) /\
    List.length (value_components (rewrite_line (lit "N:Smith;;;;;;")))
      = Nat.max 5 (List.length kept).
Proof.
  assert (Hv : ~ In colon (field_value (lit "N:Smith;;;;;;"))).
  { intros H. vm_compute in H. intuition discriminate. }
  split; [reflexivity |]. split; [exact Hv |].
  exact (proj2 (proj2 (proj2 (structured_name_padded_not_truncated
                               (lit "N:Smith;;;;;;") eq_refl Hv)))).
Defined.

(** C7 (as stated) fails: a name whose value has six components that are
    not empty is emitted with all six. *)
Lemma name_with_six_components_kept :
  startswith N_ (lit "N:Smith;John;Q;Dr;Jr;Esq") = true /\
  field_rules (Settings false false) (lit "N:Smith;John;Q;Dr;Jr;Esq")
    = Some (lit "N:Smith;John;Q;Dr;Jr;Esq") /\
  value_components (lit "N:Smith;John;Q;Dr;Jr;Esq")
    = [lit "Smith"; lit "John"; lit "Q"; lit "Dr"; lit "Jr"; lit "Esq"] /\
  List.length (value_components (lit "N:Smith;John;Q;Dr;Jr;Esq")) <> 5.
Proof.
  vm_compute. repeat split. discriminate.
Qed.

(* ================================================================== *)
(** ** The emptiness test and names that hold a colon *)
(* ================================================================== *)

(** When the value of the structured-name line holds no colon, the
    emptiness test of the code is the one of the specification. *)
Lemma has_empty_n_iff (lines : list str) :
  (forall line, find (startswith N_) lines = Some line ->
                ~ In colon (field_value line)) ->
  (has_empty_n lines = true <-> structured_name_is_empty lines).
Proof.
  intros Hcol. unfold has_empty_n, structured_name_is_empty.
  rewrite n_parts_find, forallb_forall.
  destruct (find (startswith N_) lines) as [line |] eqn:E.
  - assert (Hs : startswith N_ line = true)
      by exact (proj2 (find_some _ _ E)).
    rewrite (name_components_value line Hs (Hcol line eq_refl)).
    split; intros H part Hp.
    + exact (proj1 (strip_falsy_iff part) (H part Hp)).
    + exact (proj2 (strip_falsy_iff part) (H part Hp)).
  - split; [intros _; exact I | intros _ part []].
Qed.

(** Without the show-as-company marker, and when the value of the
    structured-name line holds no colon, a card is an organization exactly
    when its structured name is empty and it has an [ORG:] line. *)
Lemma organization_when_no_colon (lines : list str) :
  (forall line, find (startswith N_) lines = Some line ->
                ~ In colon (field_value line)) ->
  has_x_abshowas_company lines = false ->
  (is_org lines = true <->
   structured_name_is_empty lines /\ has_organization_field lines).
Proof.
  intros Hcol Hx. unfold is_org. rewrite Hx, orb_false_l, andb_true_iff.
  rewrite (has_empty_n_iff lines Hcol).
  unfold has_org, has_organization_field.
  rewrite existsb_exists. reflexivity.
Qed.

(** C8 fails on the code for a name whose value holds a colon.  The
    structured name is empty when every component of the value of the
    structured-name line is blank.  The code takes the value with
    [split(':')[1]], the text between the first two colons of the line.
    In the card below the value of the name line is [:Doe;John;;;], with
    two components that are not blank, and there is no show-as-company
    marker; the code sees the empty text in front of the second colon,
    finds the name empty and, as there is an [ORG:] line, classifies the
    card as an organization.  On every card whose name value holds no
    colon the code does what the specification says. *)
Theorem colon_in_name_counts_as_empty :
  has_x_abshowas_company Sample.colon_name_card = false /\
  find (startswith N_) Sample.colon_name_card = Some (lit "N::Doe;John;;;") /\
  value_components (lit "N::Doe;John;;;")
    = [lit ":Doe"; lit "John"; []; []; []] /\
  ~ structured_name_is_empty Sample.colon_name_card /\
  has_organization_field Sample.colon_name_card /\
  has_empty_n Sample.colon_name_card = true /\
  is_org Sample.colon_name_card = true /\
  (forall s : settings,
     convert_vcard_3_to_4 (text Sample.colon_name_card) s
     = Ok (text [lit "BEGIN:VCARD"; lit "VERSION:4.0"; lit "KIND:org";
                 lit "N:;;;;"; lit "ORG:Acme"; lit "END:VCARD"])) /\
  (forall lines : list str,
     (forall line, find (startswith N_) lines = Some line ->
                   ~ In colon (field_value line)) ->
     (has_empty_n lines = true <-> structured_name_is_empty lines) /\
     (has_x_abshowas_company lines = false ->
      (is_org lines = true <->
       structured_name_is_empty lines /\ has_organization_field lines))).
Proof.
  split; [reflexivity |]. split; [reflexivity |]. split; [reflexivity |].
  split.
  { unfold structured_name_is_empty.
    change (find (startswith N_) Sample.colon_name_card)
      with (Some (lit "N::Doe;John;;;")).
    intros H.
    assert (Hp : In (lit "John") (value_components (lit "N::Doe;John;;;")))
      by (right; left; reflexivity).
    specialize (H (lit "John") Hp 74%N (or_introl eq_refl)).
    discriminate H. }
  split.
  { exists (lit "ORG:Acme"). split; [| reflexivity].
    right; right; right; left; reflexivity. }
  split; [reflexivity |]. split; [reflexivity |].
  split; [intros [[] []]; vm_compute; reflexivity |].
  intros lines Hcol.
  split; [exact (has_empty_n_iff lines Hcol) |].
  exact (organization_when_no_colon lines Hcol).
Qed.

(* ================================================================== *)
(** ** The address rule and the rules behind it *)
(* ================================================================== *)

Lemma same_letter_iff (a b : char) :
  eq_ignorecase a b = true <-> same_letter a b.
Proof.
  unfold eq_ignorecase, same_letter, in_range.
  rewrite orb_true_iff, !andb_true_iff, !N.eqb_eq, !N.leb_le.
  reflexivity.
Qed.

Lemma same_letters_iff (p q : str) :
  Forall2 (fun a b => eq_ignorecase a b = true) p q <->
  Forall2 same_letter p q.
Proof.
  split; intros H; induction H; constructor; try assumption;
    apply same_letter_iff; assumption.
Qed.

Lemma strip_prefix_ignorecase_app (p q r : str) :
  Forall2 (fun a b => eq_ignorecase a b = true) p q ->
  strip_prefix_ignorecase p (q ++ r) = Some r.
Proof.
  intros H. induction H as [| a b p q Hab _ IH]; [reflexivity |].
  cbn [app strip_prefix_ignorecase]. rewrite Hab. exact IH.
Qed.

Lemma span_value (g rest : str) :
  ~ In semicolon g ->
  rest = [] \/ (exists r, rest = semicolon :: r) ->
  span (fun c => negb (c =? 59)%N) (g ++ rest) = (g, rest).
Proof.
  intros Hg Hrest. induction g as [| c g IH]; cbn [app span].
  - destruct Hrest as [-> | [r ->]]; [reflexivity |].
    cbn [span]. reflexivity.
  - assert (Hc : (c =? 59)%N = false).
    { apply N.eqb_neq. intros ->. apply Hg. left; reflexivity. }
    rewrite Hc. cbn [negb].
    rewrite IH by (intros H; apply Hg; right; exact H). reflexivity.
Qed.

Lemma match_type_at_key (t g rest : str) :
  type_keyed t g rest ->
  exists q, t = q ++ g ++ rest /\ q <> [] /\
            match_type t = Some (lit "TYPE=" ++ g, List.length (q ++ g)).
Proof.
  intros [q [Hq [Hg [Hsemi [Hrest ->]]]]].
  exists q. split; [reflexivity |].
  apply same_letters_iff in Hq.
  split; [intros ->; inversion Hq |].
  unfold match_type.
  rewrite (strip_prefix_ignorecase_app _ q (g ++ rest) Hq).
  rewrite (span_value g rest Hsemi Hrest).
  destruct g as [| c g]; [contradiction |]. cbn [falsy].
  f_equal. f_equal. rewrite length_app.
  rewrite <- (Forall2_length Hq). reflexivity.
Qed.

Lemma sub_type_at_key (t g rest : str) :
  type_keyed t g rest ->
  sub_type t = lit "TYPE=" ++ g ++ sub_type rest.
Proof.
  intros H. destruct (match_type_at_key t g rest H) as [q [Et [Hq E]]].
  destruct t as [| c r].
  - destruct q; [contradiction | discriminate Et].
  - unfold sub_type. rewrite (re_sub_match _ _ _ _ _ E), <- app_assoc.
    f_equal. f_equal. f_equal.
    apply (skipn_matched c r (q ++ g) rest).
    + intros E0. apply app_eq_nil in E0. destruct E0 as [E0 _]. exact (Hq E0).
    + rewrite <- app_assoc. exact Et.
Qed.

Lemma match_type_keyed (t out : str) (n : nat) :
  match_type t = Some (out, n) -> exists g rest, type_keyed t g rest.
Proof.
  unfold match_type. intros H.
  destruct (strip_prefix_ignorecase (lit "type=") t) as [r |] eqn:E1;
    [| discriminate H].
  destruct (strip_prefix_ignorecase_some _ _ _ E1) as [q [-> Hq]].
  destruct (span (fun c => negb (c =? 59)%N) r) as [g rest] eqn:E2.
  destruct (span_spec _ _ _ _ E2) as [-> [Hall Hstop]].
  destruct g as [| c g]; [discriminate H |].
  exists (c :: g), rest. exists q.
  split; [apply same_letters_iff, Hq |].
  split; [discriminate |].
  split.
  - intros Hin. rewrite forallb_forall in Hall.
    specialize (Hall semicolon Hin). discriminate Hall.
  - split; [| reflexivity].
    destruct Hstop as [-> | [x [r' [-> Hx]]]]; [left; reflexivity | right].
    apply negb_false_iff, N.eqb_eq in Hx. subst x. exists r'. reflexivity.
Qed.

Lemma sub_type_elsewhere (c : char) (r : str) :
  (forall g rest, ~ type_keyed (c :: r) g rest) ->
  sub_type (c :: r) = c :: sub_type r.
Proof.
  intros H. apply re_sub_no_match.
  destruct (match_type (c :: r)) as [[out n] |] eqn:E; [| reflexivity].
  destruct (match_type_keyed _ _ _ E) as [g [rest Hk]].
  exfalso. exact (H g rest Hk).
Qed.

Lemma sub_item_at_prefix (tok t rest : str) :
  item_prefixed tok t rest -> sub_item tok t = tok ++ sub_item tok rest.
Proof.
  intros [ds [Hne [Hds ->]]]. unfold sub_item.
  pose proof (match_item_matches tok ds rest Hne Hds) as E.
  etransitivity;
    [exact (re_sub_match (match_item tok) 105%N
              (lit "tem" ++ ds ++ [46%N] ++ tok ++ rest) _ _ E) |].
  f_equal. f_equal.
  apply (skipn_matched 105%N).
  - intros E0. apply app_eq_nil in E0. destruct E0 as [E0 _]. discriminate E0.
  - rewrite <- !app_assoc. reflexivity.
Qed.

Lemma sub_item_elsewhere (tok : str) (c : char) (r : str) :
  (forall rest, ~ item_prefixed tok (c :: r) rest) ->
  sub_item tok (c :: r) = c :: sub_item tok r.
Proof.
  intros H. apply re_sub_no_match.
  destruct (match_item tok (c :: r)) as [[out n] |] eqn:E; [| reflexivity].
  destruct (match_item_some _ _ _ _ E) as [ds [rest [Es [Hne [Hds _]]]]].
  exfalso. apply (H rest). exists ds.
  split; [exact Hne |]. split; [exact Hds |].
  rewrite Es, <- !app_assoc. reflexivity.
Qed.

Lemma contains_in (c : char) (p s : str) :
  contains (c :: p) s = true -> In c s.
Proof.
  induction s as [| x s IH]; intros H.
  - discriminate H.
  - change (contains (c :: p) (x :: s))
      with (startswith (c :: p) (x :: s) || contains (c :: p) s) in H.
    apply orb_true_iff in H. destruct H as [H | H].
    + cbn [startswith] in H. apply andb_true_iff in H. destruct H as [H _].
      apply N.eqb_eq in H. left. symmetry. exact H.
    + right. apply IH, H.
Qed.

Lemma address_line_not_blank (line : str) :
  contains ADR line = true -> falsy (strip line) = false.
Proof.
  intros H. destruct (falsy (strip line)) eqn:E; [| reflexivity].
  rewrite strip_falsy_iff in E.
  specialize (E 65%N (contains_in 65%N (lit "DR") line H)). discriminate E.
Qed.

(** C3 (as amended): the rewriting rules do not end the iteration, each
    hands the line on to the rules behind it.  A line that holds the
    address token and is not taken by the formatted-name, product-id,
    version or show-as-company rule is rewritten by the address rule:
    scanning from the left, every [item<digits>.ADR] is replaced by [ADR],
    and then every [type=] in any letter case that has a value, which runs
    up to the next semicolon, gets the key [TYPE=]; everything else is
    copied.  The result goes through the telephone, e-mail, URL and name
    rules, and the line loop appends it to the output unless it holds a
    vendor marker, in which case the line is dropped.  The substitutions
    keep the marker [X-ABADR:], so a line that holds it and does not start
    with [N:] is always dropped. *)
Theorem address_rule_falls_through (s : settings) (line : str) :
  contains ADR line = true ->
  reaches_rewriting s line = true ->
  rewrite_line line
    = name_rule (url_rule (email_rule (telephone_rule
        (sub_type (sub_item ADR line))))) /\
  (forall t rest,
     item_prefixed ADR t rest -> sub_item ADR t = ADR ++ sub_item ADR rest) /\
  (forall c r,
     (forall rest, ~ item_prefixed ADR (c :: r) rest) ->
     sub_item ADR (c :: r) = c :: sub_item ADR r) /\
  (forall t g rest,
     type_keyed t g rest -> sub_type t = lit "TYPE=" ++ g ++ sub_type rest) /\
  (forall c r,
     (forall g rest, ~ type_keyed (c :: r) g rest) ->
     sub_type (c :: r) = c :: sub_type r) /\
  field_rules s line
    = (if apple_specific (rewrite_line line) then None
       else Some (rewrite_line line)) /\
  (forall st sp,
     startswith BEGIN_VCARD line = false ->
     photo_rule s (skip_photo st) line = Proceed sp ->
     line_step s st line
     = LoopState
         (new_lines st
          ++ (if apple_specific (rewrite_line line) then []
              else [rewrite_line line]))
         sp) /\
  (contains X_ABADR line = true -> startswith N_ line = false ->
   field_rules s line = None).
Proof.
  intros Hadr Hreach.
  pose proof (field_rules_rewriting s line Hreach) as Hfield.
  split; [unfold rewrite_line, address_rule; rewrite Hadr; reflexivity |].
  split; [exact (sub_item_at_prefix ADR) |].
  split; [exact (sub_item_elsewhere ADR) |].
  split; [exact sub_type_at_key |].
  split; [exact sub_type_elsewhere |].
  split; [exact Hfield |].
  split.
  - intros st sp Hbegin Hphoto. unfold line_step.
    rewrite (address_line_not_blank line Hadr), Hbegin, Hphoto, Hfield.
    cbn [orb].
    destruct (apple_specific (rewrite_line line));
      [rewrite app_nil_r |]; reflexivity.
  - intros Hmark Hname. rewrite Hfield.
    assert (E : rewrite_line line = before_name_rule line).
    { change (rewrite_line line) with (name_rule (before_name_rule line)).
      unfold name_rule. rewrite before_name_rule_prefix, Hname. reflexivity. }
    rewrite E, (apple_specific_marker _ (before_name_rule_marker line Hmark)).
    reflexivity.
Qed.

Lemma address_rule_falls_through_witness :
  contains ADR (lit "item1.ADR;type=HOME:;;1 Main St;;;;") = true /\
  reaches_rewriting (Settings true true)
    (lit "item1.ADR;type=HOME:;;1 Main St;;;;") = true /\
  field_rules (Settings true true) (lit "item1.ADR;type=HOME:;;1 Main St;;;;")
  = Some (lit "ADR;TYPE=HOME:;;1 Main St;;;;") /\
  contains ADR (lit "item1.X-ABADR:us") = true /\
  reaches_rewriting (Settings true true) (lit "item1.X-ABADR:us") = true /\
  field_rules (Settings true true) (lit "item1.X-ABADR:us") = None.
Proof.
  split; [reflexivity |]. split; [reflexivity |].
  split.
  - exact (eq_trans
             (proj1 (proj2 (proj2 (proj2 (proj2 (proj2
                (address_rule_falls_through (Settings true true)
                   (lit "item1.ADR;type=HOME:;;1 Main St;;;;")
                   eq_refl eq_refl)))))))
             eq_refl).
  - split; [reflexivity |]. split; [reflexivity |].
    exact (proj2 (proj2 (proj2 (proj2 (proj2 (proj2 (proj2
             (address_rule_falls_through (Settings true true)
                (lit "item1.X-ABADR:us") eq_refl eq_refl)))))))
             eq_refl eq_refl).
Defined.

Example address_rule_examples :
  item_prefixed ADR (lit "item1.ADR;type=HOME:;;1 Main St;;;;")
    (lit ";type=HOME:;;1 Main St;;;;") /\
  type_keyed (lit "type=HOME:;;1 Main St;;;;") (lit "HOME:")
    (lit ";;1 Main St;;;;") /\
  address_rule (lit "item1.ADR;type=HOME;Type=pref:;;1 Main St;;;;")
  = lit "ADR;TYPE=HOME;TYPE=pref:;;1 Main St;;;;".
Proof.
  split; [| split; [| reflexivity]].
  - exists (lit "1"). split; [discriminate |]. split; reflexivity.
  - exists (lit "type=").
    split.
    { change (lit "type=") with [116%N; 121%N; 112%N; 101%N; 61%N].
      repeat constructor. }
    split; [discriminate |].
    split; [intros H; vm_compute in H; intuition discriminate |].
    split; [right; eexists; reflexivity | reflexivity].
Qed.
